(** * neural-maxwell: dataset generators and operator assembly

    A shallow embedding of [neural_maxwell/datasets/generators.py]:
    the open-boundary [SimulationData] runner, the [Cavity2D] runner, the
    operator export [get_A_ops_2d], the HDF5 table set-up [create_dataset]
    with its reader [load_batch], and the permittivity generators.

    Conventions.
    - Python [int] is [Z]; numpy [int64] is [Z] with its wrap-around
      ([wrap64]); Python [float] / numpy [float64] is the binary64 type
      [float] of the kernel, so every definition below evaluates.
    - A 2-D [ndarray] is a list of rows; [a.reshape((-1,))] is [concat].
    - A raising call returns [Raise e]; a method that can draw from
      [np.random] returns the list of its equally likely outcomes.
    - [angler] (the FDFD solver), [scipy.sparse] products, [h5py] and the
      C library's [pow] are external to the repository; they appear as a
      [Backend] record and as small models written from the specification. *)

From Stdlib Require Import ZArith Lia Bool.
From Stdlib Require Import Floats.PrimFloat Numbers.Cyclic.Int63.Uint63.
From stdpp Require Import gmap strings list.

Set Default Proof Using "Type".
Set Warnings "-inexact-float".
Local Open Scope Z_scope.

(* ===================================================================== *)
(** ** Python values: exceptions, results, ranges, slices                *)
(* ===================================================================== *)

Inductive exn : Type :=
  | ValueError (msg : string)
  | IndexError (msg : string)
  | TypeError (msg : string)
  | AssertionError (msg : string).

Definition message (e : exn) : string :=
  match e with
  | ValueError m | IndexError m | TypeError m | AssertionError m => m
  end.

Inductive result (A : Type) : Type :=
  | Ok (a : A)
  | Raise (e : exn).
Arguments Ok {A} a.
Arguments Raise {A} e.

Definition returned {A} (r : result A) : Prop := ∃ a, r = Ok a.
Definition raised {A} (r : result A) : Prop := ∃ e, r = Raise e.

#[global] Instance result_ret : MRet result := λ A a, Ok a.
#[global] Instance result_bind : MBind result := λ A B f m,
  match m with
  | Ok a => f a
  | Raise e => Raise e
  end.

(** [range(n)] *)
Definition range (n : Z) : list Z := seqZ 0 n.

(** A slice bound as [slice.indices] adjusts it for a sequence of length
    [len] (step 1): a negative bound counts from the end, and the result is
    clamped to [0, len]. *)
Definition adjust (len i : Z) : Z :=
  if i <? 0 then Z.max 0 (i + len) else Z.min i len.

Record slice : Type := Slice { lower : option Z; upper : option Z }.

Definition slice_start (s : slice) (len : nat) : nat :=
  match lower s with
  | None => 0%nat
  | Some i => Z.to_nat (adjust (Z.of_nat len) i)
  end.

Definition slice_stop (s : slice) (len : nat) : nat :=
  match upper s with
  | None => len
  | Some i => Z.to_nat (adjust (Z.of_nat len) i)
  end.

Definition in_slice (s : slice) (len k : nat) : bool :=
  (slice_start s len <=? k)%nat && (k <? slice_stop s len)%nat.

Definition slice_length (s : slice) (len : nat) : nat :=
  (slice_stop s len - slice_start s len)%nat.

(** [a:b], [:b], [a:] and [:] *)
Definition from_to (a b : Z) : slice := Slice (Some a) (Some b).
Definition up_to (b : Z) : slice := Slice None (Some b).
Definition from (a : Z) : slice := Slice (Some a) None.
Definition everything : slice := Slice None None.

(** An index into a sequence of length [len]; [None] is Python's
    [IndexError]. *)
Definition py_index (len : nat) (i : Z) : option nat :=
  if (0 <=? i) && (i <? Z.of_nat len) then Some (Z.to_nat i)
  else if (- Z.of_nat len <=? i) && (i <? 0) then Some (Z.to_nat (i + Z.of_nat len))
  else None.

(* ===================================================================== *)
(** ** numpy: int64, float64, 2-D arrays                                 *)
(* ===================================================================== *)

Definition wrap64 (z : Z) : Z := (z + 2 ^ 63) mod 2 ^ 64 - 2 ^ 63.
Definition add64 (a b : Z) : Z := wrap64 (a + b).
Definition sub64 (a b : Z) : Z := wrap64 (a - b).
Definition sqr64 (a : Z) : Z := wrap64 (a * a).

(** int64 to float64, round to nearest. *)
Definition float_of_int64 (z : Z) : float :=
  if z =? - 2 ^ 63 then (- 0x1p63)%float
  else if z <? 0 then (- of_uint63 (of_Z (- z)))%float
  else of_uint63 (of_Z z).

(** [x ** 2] on a float64: the correctly rounded square. *)
Definition sqr (x : float) : float := (x * x)%float.

(** A bool compared with a float is first converted to 0.0 or 1.0. *)
Definition float_of_bool (b : bool) : float := if b then 1%float else 0%float.

Definition grid : Type := list (list float).

Definition cell {A} (a : list (list A)) (i j : nat) : option A :=
  a !! i ≫= λ row, row !! j.

Definition shape {A} (a : list (list A)) : nat * nat :=
  (length a, match a with [] => 0%nat | row :: _ => length row end).

(** Every row has [cols] entries: the array is [rows] x [cols]. *)
Definition rect {A} (rows cols : nat) (a : list (list A)) : Prop :=
  length a = rows ∧ ∀ i row, a !! i = Some row → length row = cols.

(** [np.ones((rows, cols))] *)
Definition np_ones (rows cols : Z) : result grid :=
  if (rows <? 0) || (cols <? 0)
  then Raise (ValueError "negative dimensions are not allowed")
  else Ok (replicate (Z.to_nat rows) (replicate (Z.to_nat cols) 1%float)).

(** [a[rs, cs] = v] for a scalar [v] *)
Definition setitem_scalar {A} (rs cs : slice) (v : A) (a : list (list A)) : list (list A) :=
  imap (λ i row,
    if in_slice rs (length a) i
    then imap (λ j x, if in_slice cs (length row) j then v else x) row
    else row) a.

(** [a[rs, cs] = b] for an array [b], which numpy broadcasts to the shape
    of the target block: each axis of [b] has the block's length or 1. *)
Definition broadcast_index (n i : nat) : nat := if (n =? 1)%nat then 0%nat else i.

Definition setitem_block (rs cs : slice) (b : grid) (a : grid) : result grid :=
  let h := slice_length rs (length a) in
  let w := slice_length cs (snd (shape a)) in
  let '(hb, wb) := shape b in
  if ((hb =? h)%nat || (hb =? 1)%nat) && ((wb =? w)%nat || (wb =? 1)%nat)
  then Ok (imap (λ i row,
         if in_slice rs (length a) i
         then imap (λ j x,
                if in_slice cs (length row) j
                then default x (cell b (broadcast_index hb (i - slice_start rs (length a)))
                                       (broadcast_index wb (j - slice_start cs (length row))))
                else x) row
         else row) a)
  else Raise (ValueError "could not broadcast input array into shape of the block").

(** [a[rs, cs]] *)
Definition cut {A} (s : slice) (l : list A) : list A :=
  take (slice_length s (length l)) (drop (slice_start s (length l)) l).

Definition getitem {A} (rs cs : slice) (a : list (list A)) : list (list A) :=
  cut cs <$> cut rs a.

(** [a[i, j] = v]; an index outside the array raises. *)
Definition setitem_cell {A} (i j : Z) (v : A) (a : list (list A)) : result (list (list A)) :=
  match py_index (length a) i, py_index (snd (shape a)) j with
  | Some i', Some j' => Ok (imap (λ k row, if (k =? i')%nat then <[j' := v]> row else row) a)
  | _, _ => Raise (IndexError "index is out of bounds")
  end.

(** Elementwise maps over an array. *)
Definition map2d {A B} (f : A → B) (a : list (list A)) : list (list B) :=
  fmap (M := list) (fmap (M := list) f) a.

(** [a.reshape((-1,))]: row-major flattening; [reshape] is its inverse on
    vectors of [rows * cols] entries. *)
Definition flatten {A} (a : list (list A)) : list A := concat a.

Fixpoint reshape {A} (rows cols : nat) (v : list A) : list (list A) :=
  match rows with
  | O => []
  | S rows' => take cols v :: reshape rows' cols (drop cols v)
  end.



(** [[[f(x, y) for x in range(n)] for y in range(n)]] *)
Definition table {A} (n : Z) (f : Z → Z → A) : list (list A) :=
  (λ y, (λ x, f x y) <$> range n) <$> range n.

(** [np.array(rows)[rs, cs]] for a nested list [rows]: a list of no rows
    makes a one-dimensional empty array, which two indices do not fit. *)
Definition getitem_nested {A} (rs cs : slice) (rows : list (list A))
    : result (list (list A)) :=
  match rows with
  | [] => Raise (IndexError "too many indices for array")
  | _ :: _ => Ok (getitem rs cs rows)
  end.

(* ===================================================================== *)
(** ** np.random                                                          *)
(* ===================================================================== *)

(** A computation that draws from [np.random] is the list of its equally
    likely outcomes; an outcome is a returned value or a raised exception.
    The ranges of later draws never depend on earlier ones in this module,
    so sequencing keeps the outcomes equally likely. *)
Abbreviation rand A := (list (result A)) (only parsing).

Definition rand_ret {A} (a : A) : rand A := [Ok a].

Definition rand_bind {A B} (m : rand A) (f : A → rand B) : rand B :=
  mbind (M := list) (λ r, match r with Ok a => f a | Raise e => [Raise e] end) m.

(** The error of a draw from an empty range; numpy words it by the upper
    bound when the lower one is 0. *)
Definition empty_range (low : Z) : exn :=
  ValueError (if low =? 0 then "high <= 0" else "low >= high").

(** [np.random.randint(low, high)]: one of [low .. high-1] ([high] is
    excluded); an empty interval raises. *)
Definition randint (low high : Z) : rand Z :=
  if low <? high then Ok <$> seqZ low (high - low)
  else [Raise (empty_range low)].

(** [np.random.randint(low, high, 2)] unpacked into two names. *)
Definition randint2 (low high : Z) : rand (Z * Z) :=
  rand_bind (randint low high) (λ a,
  rand_bind (randint low high) (λ b, rand_ret (a, b))).

(** The values among the outcomes. *)
Definition values {A} (m : rand A) : list A :=
  mbind (M := list) (λ r, match r with Ok a => [a] | Raise _ => [] end) m.

(* ===================================================================== *)
(** ** Methods: a state and exception monad over the object              *)
(* ===================================================================== *)

(** A method runs on [self], may assign to its attributes, and returns or
    raises; assignments made before a raise stay. *)
Definition method (S A : Type) : Type := S → S * result A.

Definition m_ret {S A} (a : A) : method S A := λ s, (s, Ok a).

Definition m_bind {S A B} (m : method S A) (f : A → method S B) : method S B :=
  λ s, match m s with
       | (s', Ok a) => f a s'
       | (s', Raise e) => (s', Raise e)
       end.

Definition m_lift {S A} (r : result A) : method S A := λ s, (s, r).
Definition m_self {S} : method S S := λ s, (s, Ok s).
Definition m_assign {S} (f : S → S) : method S unit := λ s, (f s, Ok tt).

Notation "'let*' x ':=' m 'in' k" := (m_bind m (λ x, k))
  (at level 100, x pattern, m at level 99, k at level 200, only parsing).
Notation "m ;;; k" := (m_bind m (λ _, k))
  (at level 100, k at level 200, only parsing).

(* ===================================================================== *)
(** ** Constants and the external solver                                 *)
(* ===================================================================== *)

(** The values of [neural_maxwell.constants] used by the generators. *)
Record constants : Type := Constants {
  GRID_SIZE : Z;
  OMEGA_1550 : float;
  eps_si : float;
  EPSILON0 : float;
  MU0 : float
}.

Definition complex : Type := float * float.
Definition cgrid : Type := list (list complex).
Definition c_zero : complex := (0%float, 0%float).
Definition c_one : complex := (1%float, 0%float).
Definition c_i : complex := (0%float, 1%float).

(** [sim.derivs], and [unpack_derivs] in the order it returns them. *)
Record derivs (Op : Type) : Type := Derivs { Dyb : Op; Dxb : Op; Dxf : Op; Dyf : Op }.
Arguments Derivs {Op}.
Arguments Dyb {Op}.
Arguments Dxb {Op}.
Arguments Dxf {Op}.
Arguments Dyf {Op}.

Definition unpack_derivs {Op} (d : derivs Op) : Op * Op * Op * Op :=
  (Dyb d, Dxb d, Dxf d, Dyf d).

(** An [angler.Simulation] object. *)
Record Simulation (Op : Type) : Type := Sim {
  sim_omega : float;
  sim_eps_r : grid;
  sim_dl : float;
  sim_NPML : list Z;
  sim_pol : string;
  sim_L0 : float;
  sim_src : cgrid;
  sim_derivs : derivs Op
}.
Arguments Sim {Op}.
Arguments sim_omega {Op}.
Arguments sim_eps_r {Op}.
Arguments sim_dl {Op}.
Arguments sim_NPML {Op}.
Arguments sim_pol {Op}.
Arguments sim_L0 {Op}.
Arguments sim_src {Op}.
Arguments sim_derivs {Op}.

(** What the generators call in [angler], on [scipy.sparse] complex
    operators and in the C library. [check_inputs] is the constructor's
    validation of its arguments ([None]: accepted); [assemble] builds the
    four difference operators; [solve_fields] is the linear solve.
    [float_pow] is [x ** y] on Python floats, which is the C library's
    [pow]: close to the power but not always its nearest float, so
    [x ** 2] need not be [x * x] (1.3e11 ** 2 is 1.6900000000000001e22,
    1.3e11 * 1.3e11 is 1.69e22). *)
Record Backend : Type := {
  Op : Type;
  Dense : Type;
  matmul : Op → Op → Op;
  matadd : Op → Op → Op;
  todense : Op → Dense;
  check_inputs : float → grid → float → list Z → string → float → option exn;
  assemble : float → nat * nat → float → list Z → string → float → derivs Op;
  solve_fields : Simulation Op → result (cgrid * cgrid * cgrid);
  float_pow : float → float → float
}.

(** The constructor rejects a polarization other than "Ez" and "Hz": the
    OperatorAssembler contract (4.2) makes an unsupported mode a failure,
    and [angler] asserts it among its input checks. *)
Definition rejects_unknown_pol (B : Backend) : Prop :=
  ∀ omega eps_r dl NPML pol L0,
    pol ≠ "Ez" → pol ≠ "Hz" →
    ∃ msg, check_inputs B omega eps_r dl NPML pol L0 = Some (AssertionError msg).

(** Modelled from the spec: the constructor of [angler.Simulation], which is
    not among the sources. Following the OperatorAssembler contract (4.2),
    the difference operators are a function of the total grid shape, the
    grid spacing [dl], the length scale [L0], the polarization mode, the PML
    thickness and the angular frequency [omega]; the permittivity is stored
    on the object and the source starts as zeros of the grid's shape. *)
Definition new_Simulation (B : Backend) (omega : float) (eps_r : grid) (dl : float)
    (NPML : list Z) (pol : string) (L0 : float) : result (Simulation (Op B)) :=
  match check_inputs B omega eps_r dl NPML pol L0 with
  | Some e => Raise e
  | None =>
      Ok (Sim omega eps_r dl NPML pol L0 (map2d (λ _, c_zero) eps_r)
              (assemble B omega (shape eps_r) dl NPML pol L0))
  end.

(** [sim.src[i, j] = v] *)
Definition set_src {Op} (i j : Z) (v : complex) (sim : Simulation Op) : result (Simulation Op) :=
  src ← setitem_cell i j v (sim_src sim);
  mret (Sim (sim_omega sim) (sim_eps_r sim) (sim_dl sim) (sim_NPML sim)
            (sim_pol sim) (sim_L0 sim) src (sim_derivs sim)).

(** The input checks of [angler]'s constructor, in its order: a positive
    length scale and frequency, two non-negative PML thicknesses, and a
    polarization that is "Ez" or "Hz". Each is an assertion; the messages
    of the first two are cut before the value they print. *)
Definition angler_check_inputs (omega : float) (eps_r : grid) (dl : float)
    (NPML : list Z) (pol : string) (L0 : float) : option exn :=
  if negb (0 <? L0)%float then Some (AssertionError "L0 must be a positive number")
  else if negb (0 <? omega)%float then Some (AssertionError "omega must be a positive number")
  else match NPML with
       | [nx; ny] =>
           if negb ((0 <=? nx) && (0 <=? ny))
           then Some (AssertionError "both elements of NPML must be >= 0")
           else if bool_decide (pol = "Ez" ∨ pol = "Hz") then None
           else Some (AssertionError "pol must be one of 'Ez' or 'Hz'")
       | _ => Some (AssertionError "NPML needs to be a list of length 2")
       end.

(** A backend for the examples below: it checks its inputs as [angler]
    does, assembles trivial operators and returns the source as every
    field. Its [float_pow] squares by one rounded product, which is what the
    C library returns for the frequencies of the examples
    (1.215e15 ** 2 = 1.476225e30) though not for every float. *)
Definition stub : Backend := {|
  Op := unit;
  Dense := unit;
  matmul := λ _ _, tt;
  matadd := λ _ _, tt;
  todense := λ _, tt;
  check_inputs := angler_check_inputs;
  assemble := λ _ _ _ _ _ _, Derivs tt tt tt tt;
  solve_fields := λ sim, Ok (sim_src sim, sim_src sim, sim_src sim);
  float_pow := λ x _, (x * x)%float
|}.

(** Values of the constants for the examples: the 1550 nm angular
    frequency and the SI vacuum permittivity and permeability. *)
Definition sample_constants : constants :=
  Constants 64 1.215e15%float 12.25%float 8.85418782e-12%float 1.25663706e-6%float.

(* ===================================================================== *)
(** ** scipy.sparse: real diagonal matrices                              *)
(* ===================================================================== *)

(** [sp.spdiags(data, 0, m, n)]: [data[j]] sits at row [j], column [j].
    Only the main diagonal is stored; the storage format (the source asks
    for CSR) does not change the entries. *)
Record dia : Type := Dia { dia_rows : nat; dia_cols : nat; dia_data : list float }.

Definition spdiags (data : list float) (m n : nat) : dia := Dia m n data.

(** [k * T]: the stored entries are scaled, nothing is filled in. *)
Definition dia_scale (k : float) (T : dia) : dia :=
  Dia (dia_rows T) (dia_cols T) ((λ x, k * x)%float <$> dia_data T).

(** [T.todense()] *)
Definition dia_todense (T : dia) : grid :=
  (λ i, (λ j, if (i =? j)%nat then default 0%float (dia_data T !! j) else 0%float)
        <$> seq 0 (dia_cols T))
  <$> seq 0 (dia_rows T).

(* ===================================================================== *)
(** ** class SimulationData                                              *)
(* ===================================================================== *)

Module SimulationData.

(** The solved fields, keyed "Hx", "Hy", "Ez" in the source. *)
Record fields_t : Type := Fields { Hx : cgrid; Hy : cgrid; Ez : cgrid }.

Record t : Type := Make {
  epsilons : grid;
  omega : float;
  mode : string;
  grid_size : Z;
  npml : Z;
  npml_buffer : Z;
  total_grid_size : Z;
  dl : float;
  L0 : float;
  source_pos : Z * Z;
  fields : option fields_t;
  fields_vac : option fields_t;
  proximities : option grid
}.

(** [__init__]; [source_pos = None] draws the position. *)
Definition init (epsilons : grid) (omega : float) (source_pos : option (Z * Z))
    (mode : string) (grid_size npml npml_buffer : Z) (dl L0 : float) : rand t :=
  let total_grid_size := grid_size + 2 * npml + 2 * npml_buffer in
  rand_bind
    match source_pos with
    | None =>
        rand_bind (randint 0 (npml_buffer - 1)) (λ pos_x,
        rand_bind (randint 0 grid_size) (λ pos_y,
        rand_ret (pos_x, pos_y)))
    | Some p => rand_ret p
    end (λ source_pos,
  rand_ret (Make epsilons omega mode grid_size npml npml_buffer total_grid_size
                 dl L0 source_pos None None None)).

(** The positions a default construction can take, one per outcome. *)
Definition default_sources (epsilons : grid) (omega : float) (mode : string)
    (grid_size npml npml_buffer : Z) (dl L0 : float) : list (Z * Z) :=
  source_pos <$> values (init epsilons omega None mode grid_size npml npml_buffer dl L0).

(** The first two lines of [solve] and of [get_proximity_matrix]:
    the device window [(start, end)]. *)
Definition window (self : t) : Z * Z :=
  let start := npml self + npml_buffer self in
  let end_ := start + grid_size self in
  (start, end_).

(** [self.source_pos + start], an int64 array. *)
Definition shifted_source (self : t) (start : Z) : Z * Z :=
  (add64 (fst (source_pos self)) start, add64 (snd (source_pos self)) start).

Definition set_fields (f fv : fields_t) (self : t) : t :=
  Make (epsilons self) (omega self) (mode self) (grid_size self) (npml self)
       (npml_buffer self) (total_grid_size self) (dl self) (L0 self)
       (source_pos self) (Some f) (Some fv) (proximities self).

Definition solve (B : Backend) : method t unit :=
  let* self := m_self in
  let '(start, end_) := window self in
  let* vac_perm := m_lift (np_ones (total_grid_size self) (total_grid_size self)) in
  let* perms := m_lift (setitem_block (from_to start end_) (from_to start end_)
                                      (epsilons self) vac_perm) in
  let '(pos_x, pos_y) := shifted_source self start in
  let NPML := [npml self; npml self] in
  let* vac_sim := m_lift (new_Simulation B (omega self) vac_perm (dl self) NPML
                                         (mode self) (L0 self)) in
  let* vac_sim := m_lift (set_src pos_x pos_y c_one vac_sim) in
  let* (Hx_vac, Hy_vac, Ez_vac) := m_lift (solve_fields B vac_sim) in
  let* sim := m_lift (new_Simulation B (omega self) perms (dl self) NPML
                                     (mode self) (L0 self)) in
  let* sim := m_lift (set_src pos_x pos_y c_one sim) in
  let* (Hx, Hy, Ez) := m_lift (solve_fields B sim) in
  let clip := getitem (from_to start end_) (from_to start end_) in
  m_assign (set_fields (Fields (clip Hx) (clip Hy) (clip Ez))
                       (Fields (clip Hx_vac) (clip Hy_vac) (clip Ez_vac))).

(** The integer lattice [(x - x0) ** 2 + (y - y0) ** 2], in int64. *)
Definition d2 (x0 y0 x y : Z) : Z :=
  add64 (sqr64 (sub64 x x0)) (sqr64 (sub64 y y0)).

(** A method without a matching branch falls off its end and returns
    [None]. In a matching branch the array is built from the nested list
    and then sliced, so an empty padded grid is an [IndexError]. *)
Definition get_proximity_matrix (self : t) (mode : string) : result (option grid) :=
  let '(start, end_) := window self in
  let '(x0, y0) := shifted_source self start in
  let n := total_grid_size self in
  let clip := getitem_nested (A := float) (from_to start end_) (from_to start end_) in
  if decide (mode = "linear") then
    m ← clip (map2d (λ k, PrimFloat.sqrt (float_of_int64 k)) (table n (d2 x0 y0)));
    mret (Some m)
  else if decide (mode = "squared") then
    m ← clip (map2d float_of_int64 (table n (d2 x0 y0)));
    mret (Some m)
  else if decide (mode = "inv_linear") then
    m ← clip (map2d (λ k, PrimFloat.sqrt (float_of_int64 k))
                (table n (λ x y, add64 1 (d2 x0 y0 x y))));
    mret (Some (map2d (λ v, 1 / v)%float m))
  else if decide (mode = "inv_squared") then
    m ← clip (map2d float_of_int64 (table n (λ x y, add64 1 (d2 x0 y0 x y))));
    mret (Some (map2d (λ v, 1 / v)%float m))
  else Ok None.

End SimulationData.

(* ===================================================================== *)
(** ** class Cavity2D                                                    *)
(* ===================================================================== *)

Module Cavity2D.

Record t : Type := Make {
  mode : string;
  device_length : Z;
  npml : Z;
  cavity_buffer : Z;
  buffer_permittivity : float;
  dl : float;
  L0 : float
}.

(** [total_length], [start] and [end] as [solve] and [get_operators]
    both compute them. *)
Definition geometry (self : t) : Z * Z * Z :=
  let total_length := device_length self + 2 * cavity_buffer self + 2 * npml self in
  let start := npml self + cavity_buffer self in
  let end_ := start + device_length self in
  (total_length, start, end_).

Definition solve (B : Backend) (epsilons : grid) (omega : float)
    (src_x src_y : option Z) : method t (grid * Z * Z * cgrid * cgrid * cgrid) :=
  let* self := m_self in
  let '(total_length, start, end_) := geometry self in
  let* perms := m_lift (np_ones total_length total_length) in
  let perms := setitem_scalar everything (up_to start) (buffer_permittivity self) perms in
  let perms := setitem_scalar (up_to start) everything (buffer_permittivity self) perms in
  let* perms := m_lift (setitem_block (from_to start end_) (from_to start end_)
                                      epsilons perms) in
  let perms := setitem_scalar everything (from end_) (buffer_permittivity self) perms in
  let perms := setitem_scalar (from end_) everything (buffer_permittivity self) perms in
  let src_x := default (total_length `div` 2) src_x in
  let src_y := default (total_length `div` 2) src_y in
  let* sim := m_lift (new_Simulation B omega perms (dl self) [npml self; npml self]
                                     (mode self) (L0 self)) in
  let* sim := m_lift (set_src src_y src_x c_i sim) in
  let clip {A} := getitem (A := A) everything everything in
  if decide (mode self = "Ez") then
    let* (Hx, Hy, Ez) := m_lift (solve_fields B sim) in
    m_ret (clip perms, src_x, src_y, clip Hx, clip Hy, clip Ez)
  else if decide (mode self = "Hz") then
    let* (Ex, Ey, Hz) := m_lift (solve_fields B sim) in
    m_ret (clip perms, src_x, src_y, clip Ex, clip Ey, clip Hz)
  else
    m_lift (Raise (ValueError "Polarization must be Ez or Hz!")).

(** The permittivity grid [get_operators] builds for itself. *)
Definition operator_perms (self : t) : result grid :=
  let '(total_length, start, end_) := geometry self in
  perms ← np_ones total_length total_length;
  let perms := setitem_scalar everything (up_to start) (buffer_permittivity self) perms in
  let perms := setitem_scalar (up_to start) everything (buffer_permittivity self) perms in
  let perms := setitem_scalar everything (from end_) (buffer_permittivity self) perms in
  let perms := setitem_scalar (from end_) everything (buffer_permittivity self) perms in
  mret perms.

Definition get_operators (B : Backend) (K : constants) (self : t) (omega : float)
    : result (Dense B * grid) :=
  perms ← operator_perms self;
  sim ← new_Simulation B omega perms (dl self) [npml self; npml self] (mode self) (L0 self);
  let '(Dyb, Dxb, Dxf, Dyf) := unpack_derivs (sim_derivs sim) in
  let M := (fst (shape perms) * snd (shape perms))%nat in
  let vector_eps_z := (λ e, EPSILON0 K * L0 self * e)%float <$> flatten perms in
  let T_eps_z := spdiags vector_eps_z M M in
  let curl_curl := matadd B (matmul B Dxf Dxb) (matmul B Dyf Dyb) in
  let other := dia_scale (float_pow B omega 2 * MU0 K * L0 self)%float T_eps_z in
  mret (todense B curl_curl, dia_todense other).

End Cavity2D.

(* ===================================================================== *)
(** ** get_A_ops_2d                                                      *)
(* ===================================================================== *)

Definition get_A_ops_2d (B : Backend) (K : constants) (epsilons : grid) (npml : Z)
    (omega dl L0 : float) : result (Dense B * grid) :=
  sim ← new_Simulation B omega epsilons dl [npml; npml] "Ez" L0;
  let '(Dyb, Dxb, Dxf, Dyf) := unpack_derivs (sim_derivs sim) in
  let M := (fst (shape epsilons) * snd (shape epsilons))%nat in
  let vector_eps_z := (λ e, EPSILON0 K * L0 * e)%float <$> flatten epsilons in
  let T_eps_z := spdiags vector_eps_z M M in
  let curl_curl := matadd B (matmul B Dxf Dxb) (matmul B Dyf Dyb) in
  let other := dia_scale (float_pow B omega 2 * MU0 K * L0)%float T_eps_z in
  mret (todense B curl_curl, dia_todense other).

(* ===================================================================== *)
(** ** Permittivity generators                                           *)
(* ===================================================================== *)

(** [a[mask] = v] for a boolean mask of the array's own shape. *)
Definition setitem_mask {A} (mask : list (list bool)) (v : A) (a : list (list A))
    : list (list A) :=
  imap (λ i row, imap (λ j x, if default false (cell mask i j) then v else x) row) a.

Definition rand_lift {A} (r : result A) : rand A := [r].

Definition perm_rectangle (K : constants) (s : Z) : rand grid :=
  rand_bind (rand_lift (np_ones s s)) (λ p_matrix,
  rand_bind (randint2 16 (s - 16)) (λ '(x0, y0),
  rand_bind (randint2 5 16) (λ '(dx, dy),
  rand_ret (setitem_scalar (from_to x0 (add64 x0 dx)) (from_to y0 (add64 y0 dy))
                           (eps_si K) p_matrix)))).

(** The left-hand side of the comparison in [perm_ellipse]:
    [((x - x0) / rx) ** 2 + ((y - y0) / ry) ** 2]. *)
Definition ellipse_form (x0 y0 rx ry x y : Z) : float :=
  (sqr (float_of_int64 (sub64 x x0) / float_of_int64 rx)
   + sqr (float_of_int64 (sub64 y y0) / float_of_int64 ry))%float.

(** The last four lines of [perm_ellipse], once the centre and the radii
    are drawn: the mesh, the comparison [<= 1], and the masked assignment
    under [ellipse < 1.0]. *)
Definition ellipse_block (K : constants) (s : Z) (p_matrix : grid) (x0 y0 rx ry : Z) : grid :=
  let ellipse := table s (λ x y, (ellipse_form x0 y0 rx ry x y <=? 1)%float) in
  setitem_mask (map2d (λ b, (float_of_bool b <? 1.0)%float) ellipse) (eps_si K) p_matrix.

Definition perm_ellipse (K : constants) (s : Z) : rand grid :=
  rand_bind (rand_lift (np_ones s s)) (λ p_matrix,
  rand_bind (randint2 16 (s - 16)) (λ '(x0, y0),
  rand_bind (randint2 5 16) (λ '(rx, ry),
  rand_ret (ellipse_block K s p_matrix x0 y0 rx ry)))).

(* ===================================================================== *)
(** ** h5py and create_dataset                                           *)
(* ===================================================================== *)

Inductive dtype : Type := float64 | complex128.

#[global] Instance dtype_eq_dec : EqDecision dtype.
Proof. solve_decision. Defined.

(** A stored column: its shape, its element type and its entries in
    row-major order. *)
Record dataset : Type := Dataset { ds_shape : list Z; ds_dtype : dtype; ds_data : list complex }.

(** An object in the file is a group with named members or a dataset; the
    file is its root group. A handle is the path of the object. *)
Local Unset Elimination Schemes.
Inductive node : Type :=
  | Group (members : gmap string node)
  | Column (d : dataset).
Local Set Elimination Schemes.

Abbreviation h5file := (gmap string node).
Definition handle : Type := string * string.

(** [np.can_cast(new, stored)] under the "safe" rule. *)
Definition can_cast (new stored : dtype) : bool :=
  match new, stored with
  | complex128, float64 => false
  | _, _ => true
  end.

Definition new_dataset (dims : list Z) (dt : dtype) : dataset :=
  Dataset dims dt (replicate (Z.to_nat (foldr Z.mul 1 dims)) c_zero).

(** Modelled from the spec: [h5py]'s [Group.require_group], which is not
    among the sources. An existing group of that name is opened, a missing
    one is created empty, and another kind of object under the name is an
    error. *)
Definition require_group (name : string) : method h5file string :=
  λ f, match f !! name with
       | None => (<[name := Group ∅]> f, Ok name)
       | Some (Group _) => (f, Ok name)
       | Some (Column _) => (f, Raise (TypeError "Incompatible object (Dataset) already exists"))
       end.

(** Modelled from the spec: [h5py]'s [Group.require_dataset], which is not
    among the sources. "Creating a batch that already exists must reuse
    existing columns rather than erroring"; a column whose dimensions or
    element type do not fit the request is a schema error, "never silently
    coerced"; a missing column is created with the requested shape. *)
Definition require_dataset (grp name : string) (dims : list Z) (dt : dtype)
    : method h5file handle :=
  λ f, match f !! grp with
       | Some (Group members) =>
           match members !! name with
           | None =>
               if forallb (Z.leb 0) dims
               then (<[grp := Group (<[name := Column (new_dataset dims dt)]> members)]> f,
                     Ok (grp, name))
               else (f, Raise (ValueError "Unable to create dataset (negative dimension)"))
           | Some (Column d) =>
               if decide (ds_shape d = dims)
               then if can_cast dt (ds_dtype d)
                    then (f, Ok (grp, name))
                    else (f, Raise (TypeError "Datatypes cannot be safely cast"))
               else (f, Raise (TypeError "Shapes do not match"))
           | Some (Group _) =>
               (f, Raise (TypeError "Incompatible object (Group) already exists"))
           end
       | _ => (f, Raise (ValueError "Not a group"))
       end.

(** [ds[...] = data] through a handle: the entries change, the shape and
    the element type stay. *)
Definition store (h : handle) (data : list complex) (f : h5file) : h5file :=
  match f !! h.1 with
  | Some (Group members) =>
      match members !! h.2 with
      | Some (Column d) =>
          <[h.1 := Group (<[h.2 := Column (Dataset (ds_shape d) (ds_dtype d) data)]> members)]> f
      | _ => f
      end
  | _ => f
  end.

(** The returned dict, in the order of its literal. *)
Definition create_dataset (N : Z) (name : string) (s : Z)
    : method h5file (list (string * handle)) :=
  let* grp := require_group name in
  let* epsilons := require_dataset grp "epsilons" [N; s; s] float64 in
  let* proximities := require_dataset grp "proximities" [N; s; s] float64 in
  let* Hx := require_dataset grp "Hx" [N; s; s] complex128 in
  let* Hy := require_dataset grp "Hy" [N; s; s] complex128 in
  let* Ez := require_dataset grp "Ez" [N; s; s] complex128 in
  let* Hx_vac := require_dataset grp "Hx_vac" [N; s; s] complex128 in
  let* Hy_vac := require_dataset grp "Hy_vac" [N; s; s] complex128 in
  let* Ez_vac := require_dataset grp "Ez_vac" [N; s; s] complex128 in
  m_ret [("epsilons", epsilons); ("proximities", proximities);
         ("Hx", Hx); ("Hy", Hy); ("Ez", Ez);
         ("Hx_vac", Hx_vac); ("Hy_vac", Hy_vac); ("Ez_vac", Ez_vac)].

(** The column [name] of group [grp] exists in [f] and fits a request for
    the shape [dims] and the element type [dt]. *)
Definition column_ok (grp name : string) (dims : list Z) (dt : dtype) (f : h5file) : Prop :=
  ∃ members d,
    f !! grp = Some (Group members) ∧ members !! name = Some (Column d) ∧
    ds_shape d = dims ∧ can_cast dt (ds_dtype d) = true.

(** The eight columns of a batch, as [create_dataset] requests them. *)
Definition schema (N : Z) (name : string) (s : Z) (f : h5file) : Prop :=
  column_ok name "epsilons" [N; s; s] float64 f ∧
  column_ok name "proximities" [N; s; s] float64 f ∧
  column_ok name "Hx" [N; s; s] complex128 f ∧
  column_ok name "Hy" [N; s; s] complex128 f ∧
  column_ok name "Ez" [N; s; s] complex128 f ∧
  column_ok name "Hx_vac" [N; s; s] complex128 f ∧
  column_ok name "Hy_vac" [N; s; s] complex128 f ∧
  column_ok name "Ez_vac" [N; s; s] complex128 f.

(** The dict [create_dataset] returns for the batch [name]. *)
Definition handles (name : string) : list (string * handle) :=
  (λ col, (col, (name, col))) <$>
  ["epsilons"; "proximities"; "Hx"; "Hy"; "Ez"; "Hx_vac"; "Hy_vac"; "Ez_vac"].

(** ** load_batch *)

(** What indexing an open file by name gives: the object, the [KeyError] of
    a missing name, or the exception of indexing a dataset by a name. *)
Inductive loaded (A : Type) : Type :=
  | Loaded (a : A)
  | KeyError (name : string)
  | Failed (e : exn).
Arguments Loaded {A} a.
Arguments KeyError {A} name.
Arguments Failed {A} e.

(** [ds[col]] on the group [grp]: the handle of whatever object has that
    name. *)
Definition getitem_member (grp : string) (members : gmap string node) (col : string)
    : loaded handle :=
  match members !! col with
  | Some _ => Loaded (grp, col)
  | None => KeyError col
  end.

Definition loaded_bind {A B} (m : loaded A) (k : A → loaded B) : loaded B :=
  match m with
  | Loaded a => k a
  | KeyError name => KeyError name
  | Failed e => Failed e
  end.

(** [load_batch] on the opened file: [f[batchname]], then the dict literal
    evaluated in order. *)
Definition load_batch (f : h5file) (batchname : string) : loaded (list (string * handle)) :=
  match f !! batchname with
  | None => KeyError batchname
  | Some (Column _) => Failed (ValueError "Field names only allowed for compound types")
  | Some (Group ds) =>
      loaded_bind (getitem_member batchname ds "epsilons") (λ epsilons,
      loaded_bind (getitem_member batchname ds "proximities") (λ proximities,
      loaded_bind (getitem_member batchname ds "Hx") (λ Hx,
      loaded_bind (getitem_member batchname ds "Hy") (λ Hy,
      loaded_bind (getitem_member batchname ds "Ez") (λ Ez,
      loaded_bind (getitem_member batchname ds "Hx_vac") (λ Hx_vac,
      loaded_bind (getitem_member batchname ds "Hy_vac") (λ Hy_vac,
      loaded_bind (getitem_member batchname ds "Ez_vac") (λ Ez_vac,
      Loaded [("epsilons", epsilons); ("proximities", proximities);
              ("Hx", Hx); ("Hy", Hy); ("Ez", Ez);
              ("Hx_vac", Hx_vac); ("Hy_vac", Hy_vac); ("Ez_vac", Ez_vac)]))))))))
  end.

(* ===================================================================== *)
(** * Properties                                                         *)
(* ===================================================================== *)

(** ** Slices *)

Lemma adjust_inside (len i : Z) : 0 ≤ i ≤ len → adjust len i = i.
Proof. intros H. unfold adjust. destruct (Z.ltb_spec i 0); lia. Qed.

Lemma slice_start_from_to (len : nat) (a b : Z) :
  0 ≤ a ≤ Z.of_nat len → slice_start (from_to a b) len = Z.to_nat a.
Proof. intros H. unfold slice_start; simpl. by rewrite adjust_inside. Qed.

Lemma slice_stop_from_to (len : nat) (a b : Z) :
  0 ≤ b ≤ Z.of_nat len → slice_stop (from_to a b) len = Z.to_nat b.
Proof. intros H. unfold slice_stop; simpl. by rewrite adjust_inside. Qed.

Lemma in_slice_from_to (len k : nat) (a b : Z) :
  0 ≤ a ≤ Z.of_nat len → 0 ≤ b ≤ Z.of_nat len →
  in_slice (from_to a b) len k = bool_decide (a ≤ Z.of_nat k < b).
Proof.
  intros Ha Hb. unfold in_slice.
  rewrite slice_start_from_to, slice_stop_from_to by done.
  case_bool_decide as Hk.
  - apply andb_true_iff; split; [apply Nat.leb_le | apply Nat.ltb_lt]; lia.
  - apply andb_false_iff.
    destruct (decide (a ≤ Z.of_nat k)); [right; apply Nat.ltb_ge | left; apply Nat.leb_gt]; lia.
Qed.

Lemma in_slice_up_to (len k : nat) (b : Z) :
  0 ≤ b ≤ Z.of_nat len → in_slice (up_to b) len k = bool_decide (Z.of_nat k < b).
Proof.
  intros Hb. unfold in_slice, slice_start, slice_stop; simpl.
  rewrite adjust_inside by done.
  case_bool_decide; [apply Nat.ltb_lt | apply Nat.ltb_ge]; lia.
Qed.

Lemma in_slice_from (len k : nat) (a : Z) :
  0 ≤ a ≤ Z.of_nat len → (k < len)%nat →
  in_slice (from a) len k = bool_decide (a ≤ Z.of_nat k).
Proof.
  intros Ha Hk. unfold in_slice, slice_start, slice_stop; simpl.
  rewrite adjust_inside by done.
  replace (k <? len)%nat with true by (symmetry; apply Nat.ltb_lt; lia).
  rewrite andb_true_r.
  case_bool_decide; [apply Nat.leb_le | apply Nat.leb_gt]; lia.
Qed.

Lemma in_slice_everything (len k : nat) :
  (k < len)%nat → in_slice everything len k = true.
Proof. intros Hk. unfold in_slice; simpl. by apply Nat.ltb_lt. Qed.

(** ** Arrays *)

(** A block cut out of the middle of an array. *)
Lemma lookup_cut {A} (l : list A) (lo hi : Z) (k : nat) :
  0 ≤ lo ≤ hi → hi ≤ Z.of_nat (length l) → Z.of_nat k < hi - lo →
  cut (from_to lo hi) l !! k = l !! (Z.to_nat lo + k)%nat.
Proof.
  intros Hlo Hhi Hk. unfold cut, slice_length.
  rewrite slice_start_from_to, slice_stop_from_to by lia.
  rewrite lookup_take_lt by lia. apply lookup_drop.
Qed.

Lemma length_cut {A} (l : list A) (lo hi : Z) :
  0 ≤ lo ≤ hi → hi ≤ Z.of_nat (length l) →
  length (cut (from_to lo hi) l) = Z.to_nat (hi - lo).
Proof.
  intros Hlo Hhi. unfold cut, slice_length.
  rewrite slice_start_from_to, slice_stop_from_to by lia.
  rewrite length_take, length_drop. lia.
Qed.

Section arrays.
Context {A : Type}.
Implicit Types (a : list (list A)) (row : list A).

Lemma cell_Some a i j x :
  cell a i j = Some x ↔ ∃ row, a !! i = Some row ∧ row !! j = Some x.
Proof.
  unfold cell. destruct (a !! i) as [row|]; simpl.
  - split; [eauto | by intros (? & [= <-] & ?)].
  - split; [done | by intros (? & ? & ?)].
Qed.

Lemma rect_cell_is_Some rows cols a i j :
  rect rows cols a → (i < rows)%nat → (j < cols)%nat → is_Some (cell a i j).
Proof.
  intros [Hr Hc] Hi Hj.
  destruct (lookup_lt_is_Some_2 a i) as [row Hrow]; [lia|].
  destruct (lookup_lt_is_Some_2 row j) as [x Hx]; [rewrite (Hc _ _ Hrow); lia|].
  exists x. apply cell_Some; eauto.
Qed.

Lemma rect_shape rows cols a : rect rows cols a → (0 < rows)%nat → shape a = (rows, cols).
Proof.
  intros [Hr Hc] Hpos. unfold shape. destruct a as [|row a']; simpl in *; [lia|].
  by rewrite Hr, (Hc 0%nat row).
Qed.


Lemma rect_replicate rows cols (x : A) : rect rows cols (replicate rows (replicate cols x)).
Proof.
  split; [apply length_replicate|].
  intros i row [-> _]%lookup_replicate. apply length_replicate.
Qed.

Lemma cell_replicate rows cols (x : A) i j :
  (i < rows)%nat → (j < cols)%nat → cell (replicate rows (replicate cols x)) i j = Some x.
Proof.
  intros Hi Hj. unfold cell. rewrite lookup_replicate_2 by done. simpl.
  by apply lookup_replicate_2.
Qed.

Lemma rect_setitem_scalar rows cols rs cs (v : A) a :
  rect rows cols a → rect rows cols (setitem_scalar rs cs v a).
Proof.
  intros [Hr Hc]. unfold setitem_scalar. split; [by rewrite length_imap|].
  intros i row. rewrite list_lookup_imap.
  destruct (a !! i) as [row0|] eqn:Hrow; simpl; [|done].
  intros [= <-]. destruct (in_slice rs (length a) i); [rewrite length_imap|]; eauto.
Qed.

Lemma cell_setitem_scalar rows cols rs cs (v : A) a i j x :
  rect rows cols a → cell a i j = Some x →
  cell (setitem_scalar rs cs v a) i j
  = Some (if in_slice rs rows i && in_slice cs cols j then v else x).
Proof.
  intros [Hr Hc] (row & Hrow & Hx)%cell_Some.
  unfold cell, setitem_scalar. rewrite list_lookup_imap, Hrow; simpl.
  rewrite Hr, (Hc _ _ Hrow).
  destruct (in_slice rs rows i); simpl; [|done].
  by rewrite list_lookup_imap, Hx.
Qed.

Lemma cell_map2d {B} (f : A → B) a i j : cell (map2d f a) i j = f <$> cell a i j.
Proof.
  unfold cell, map2d. rewrite list_lookup_fmap.
  destruct (a !! i) as [row|]; simpl; [|done]. by rewrite list_lookup_fmap.
Qed.

Lemma rect_map2d {B} (f : A → B) rows cols a : rect rows cols a → rect rows cols (map2d f a).
Proof.
  intros [Hr Hc]. unfold map2d. split; [by rewrite length_fmap|].
  intros i row. rewrite list_lookup_fmap.
  destruct (a !! i) as [row0|] eqn:Hrow; simpl; [|done].
  intros [= <-]. rewrite length_fmap. eauto.
Qed.

Lemma cell_getitem rows cols a (lo hi : Z) i j :
  rect rows cols a →
  0 ≤ lo ≤ hi → hi ≤ Z.of_nat rows → hi ≤ Z.of_nat cols →
  Z.of_nat i < hi - lo → Z.of_nat j < hi - lo →
  cell (getitem (from_to lo hi) (from_to lo hi) a) i j
  = cell a (Z.to_nat lo + i) (Z.to_nat lo + j).
Proof.
  intros [Hr Hc] Hlo Hrows Hcols Hi Hj. unfold cell, getitem.
  rewrite list_lookup_fmap, lookup_cut by lia.
  destruct (a !! (Z.to_nat lo + i)%nat) as [row|] eqn:Hrow; simpl; [|done].
  apply lookup_cut; try lia. rewrite (Hc _ _ Hrow). lia.
Qed.

Lemma rect_getitem rows cols a (lo hi : Z) :
  rect rows cols a →
  0 ≤ lo ≤ hi → hi ≤ Z.of_nat rows → hi ≤ Z.of_nat cols →
  rect (Z.to_nat (hi - lo)) (Z.to_nat (hi - lo)) (getitem (from_to lo hi) (from_to lo hi) a).
Proof.
  intros [Hr Hc] Hlo Hrows Hcols. unfold getitem. split.
  - rewrite length_fmap. apply length_cut; lia.
  - intros i row. rewrite list_lookup_fmap.
    destruct (cut (from_to lo hi) a !! i) as [row0|] eqn:Hrow; simpl; [|done].
    intros [= <-]. apply length_cut; [lia|].
    apply list_elem_of_lookup_2 in Hrow. unfold cut in Hrow.
    apply subseteq_take, subseteq_drop in Hrow.
    apply list_elem_of_lookup in Hrow as [k Hk]. rewrite (Hc _ _ Hk). lia.
Qed.

Lemma cell_table (n : Z) (f : Z → Z → A) i j :
  Z.of_nat i < n → Z.of_nat j < n →
  cell (table n f) i j = Some (f (Z.of_nat j) (Z.of_nat i)).
Proof.
  intros Hi Hj. unfold cell, table, range.
  rewrite list_lookup_fmap, lookup_seqZ_lt by done. simpl.
  rewrite list_lookup_fmap, lookup_seqZ_lt by done. simpl.
  by rewrite !Z.add_0_l.
Qed.

Lemma rect_table (n : Z) (f : Z → Z → A) : rect (Z.to_nat n) (Z.to_nat n) (table n f).
Proof.
  unfold table, range. split; [by rewrite length_fmap, length_seqZ|].
  intros i row. rewrite list_lookup_fmap.
  destruct (seqZ 0 n !! i); simpl; [|done].
  intros [= <-]. by rewrite length_fmap, length_seqZ.
Qed.

End arrays.

(** ** Random draws *)

Lemma randint_ok (low high : Z) :
  low < high → randint low high = Ok <$> seqZ low (high - low).
Proof. intros H. unfold randint. by destruct (Z.ltb_spec low high); [|lia]. Qed.

Lemma randint_empty (low high : Z) :
  high ≤ low → randint low high = [Raise (empty_range low)].
Proof. intros H. unfold randint. by destruct (Z.ltb_spec low high); [lia|]. Qed.

Lemma rand_bind_ok {A B} (l : list A) (f : A → rand B) :
  rand_bind (Ok <$> l) f = l ≫= f.
Proof.
  unfold rand_bind. induction l as [|x l IH]; [done|].
  rewrite fmap_cons, !bind_cons. by rewrite IH.
Qed.

Lemma rand_bind_ret {A B} (a : A) (f : A → rand B) : rand_bind (rand_ret a) f = f a.
Proof. unfold rand_bind, rand_ret. simpl. apply app_nil_r. Qed.

Lemma list_bind_assoc {A B C} (f : A → list B) (g : B → list C) (l : list A) :
  (l ≫= f) ≫= g = l ≫= λ a, f a ≫= g.
Proof.
  induction l as [|x l IH]; [done|]. by rewrite !bind_cons, bind_app, IH.
Qed.

Lemma list_fmap_of_bind {A B C} (f : A → list B) (g : B → C) (l : list A) :
  g <$> (l ≫= f) = l ≫= λ a, g <$> f a.
Proof.
  induction l as [|x l IH]; [done|]. by rewrite !bind_cons, fmap_app, IH.
Qed.

Lemma length_bind_const {A B} (f : A → list B) (l : list A) (n : nat) :
  (∀ a, length (f a) = n) → length (l ≫= f) = (length l * n)%nat.
Proof.
  intros Hf. induction l as [|x l IH]; [done|].
  rewrite bind_cons, length_app, Hf, IH. simpl. lia.
Qed.

Lemma elem_of_rand_bind {A B} (m : rand A) (f : A → rand B) (r : result B) :
  r ∈ rand_bind m f ↔
  (∃ a, Ok a ∈ m ∧ r ∈ f a) ∨ (∃ e, Raise e ∈ m ∧ r = Raise e).
Proof.
  unfold rand_bind. rewrite list_elem_of_bind. split.
  - intros ([a|e] & Hr & Hm); [left; eauto|].
    right. exists e. split; [done|]. by apply list_elem_of_singleton in Hr.
  - intros [(a & Ha & Hr) | (e & He & ->)].
    + exists (Ok a). eauto.
    + exists (Raise e). split; [by apply list_elem_of_singleton | done].
Qed.

Lemma values_bind {A B} (l : list A) (f : A → rand B) :
  values (l ≫= f) = l ≫= λ a, values (f a).
Proof.
  unfold values. induction l as [|x l IH]; [done|].
  rewrite !bind_cons, bind_app. by rewrite IH.
Qed.

(** ** SimulationData: construction *)

Section construction.
Import SimulationData.
Context (eps : grid) (om : float) (md : string) (gs np nb : Z) (dl0 L00 : float).

Local Abbreviation made pos :=
  (Make eps om md gs np nb (gs + 2 * np + 2 * nb) dl0 L00 pos None None None).
Local Abbreviation default_sources := (default_sources eps om md gs np nb dl0 L00).

Lemma init_explicit (pos : Z * Z) :
  init eps om (Some pos) md gs np nb dl0 L00 = [Ok (made pos)].
Proof. unfold init. by rewrite !rand_bind_ret. Qed.

Lemma init_outcome (src : option (Z * Z)) (self : t) :
  Ok self ∈ init eps om src md gs np nb dl0 L00 → ∃ pos, self = made pos.
Proof.
  unfold init. intros [(pos & _ & Hin) | (e & _ & [=])]%elem_of_rand_bind.
  exists pos. apply list_elem_of_singleton in Hin. by injection Hin.
Qed.

Lemma init_default :
  1 < nb → 0 < gs →
  init eps om None md gs np nb dl0 L00
  = x ← seqZ 0 (nb - 1); y ← seqZ 0 gs; [Ok (made (x, y))].
Proof.
  intros Hnb Hgs. unfold init.
  rewrite (randint_ok 0 (nb - 1)), (randint_ok 0 gs) by lia.
  rewrite !Z.sub_0_r, rand_bind_ok. unfold rand_bind at 1.
  rewrite list_bind_assoc. apply list_bind_ext; [|done].
  intros x. rewrite rand_bind_ok, list_bind_assoc. apply list_bind_ext; [|done].
  intros y. unfold rand_ret. by rewrite bind_singleton.
Qed.

(** X2. Without a source position, and with [npml_buffer <= 1] or
    [grid_size <= 0], the constructor raises in every outcome, and there is
    an outcome: a draw gets an empty range that starts at 0, which numpy
    reports as [ValueError("high <= 0")]. The row draw fails at once when
    [npml_buffer <= 1]; otherwise each of the [npml_buffer - 1] rows is
    followed by a failing column draw. *)
Lemma init_default_raises :
  nb ≤ 1 ∨ gs ≤ 0 →
  init eps om None md gs np nb dl0 L00
  = replicate (if decide (nb ≤ 1) then 1%nat else Z.to_nat (nb - 1))
              (Raise (ValueError "high <= 0")).
Proof.
  intros Hsmall. unfold init. case_decide as Hnb.
  - by rewrite (randint_empty 0 (nb - 1)) by lia.
  - rewrite (randint_ok 0 (nb - 1)), (randint_empty 0 gs) by lia.
    rewrite rand_bind_ok, Z.sub_0_r.
    replace (Z.to_nat (nb - 1)) with (length (seqZ 0 (nb - 1)))
      by (rewrite length_seqZ; lia).
    induction (seqZ 0 (nb - 1)) as [|x l IH]; [done|].
    rewrite bind_cons. unfold rand_bind in *. rewrite bind_app, IH. done.
Qed.

Lemma default_sources_eq :
  1 < nb → 0 < gs →
  default_sources = x ← seqZ 0 (nb - 1); y ← seqZ 0 gs; [(x, y)].
Proof.
  intros Hnb Hgs. unfold default_sources. rewrite init_default by done.
  rewrite values_bind, list_fmap_of_bind. apply list_bind_ext; [|done].
  intros x. rewrite values_bind, list_fmap_of_bind.
  apply list_bind_ext; [|done]. by intros y.
Qed.

Lemma elem_of_default_sources (x y : Z) :
  1 < nb → 0 < gs →
  (x, y) ∈ default_sources ↔ 0 ≤ x < nb - 1 ∧ 0 ≤ y < gs.
Proof.
  intros Hnb Hgs. rewrite default_sources_eq by done.
  rewrite list_elem_of_bind. split.
  - intros (x' & (y' & Hxy & Hy)%list_elem_of_bind & Hx).
    apply list_elem_of_singleton in Hxy. injection Hxy as -> ->.
    apply elem_of_seqZ in Hx, Hy. lia.
  - intros [Hx Hy]. exists x. split; [|apply elem_of_seqZ; lia].
    apply list_elem_of_bind. exists y.
    split; [by apply list_elem_of_singleton | apply elem_of_seqZ; lia].
Qed.

Lemma NoDup_default_sources : 1 < nb → 0 < gs → NoDup default_sources.
Proof.
  intros Hnb Hgs. rewrite default_sources_eq by done.
  apply NoDup_bind; [| |apply NoDup_seqZ].
  - intros x1 x2 p _ _ (y1 & Hp1 & _)%list_elem_of_bind (y2 & Hp2 & _)%list_elem_of_bind.
    apply list_elem_of_singleton in Hp1, Hp2. congruence.
  - intros x _. apply NoDup_bind; [| |apply NoDup_seqZ].
    + intros y1 y2 p _ _ Hp1 Hp2.
      apply list_elem_of_singleton in Hp1, Hp2. congruence.
    + intros y _. apply NoDup_singleton.
Qed.

End construction.

(** ** Padded grids *)

Lemma np_ones_ok (rows cols : Z) :
  0 ≤ rows → 0 ≤ cols →
  np_ones rows cols = Ok (replicate (Z.to_nat rows) (replicate (Z.to_nat cols) 1%float)).
Proof.
  intros Hr Hc. unfold np_ones.
  destruct (Z.ltb_spec rows 0); [lia|]. by destruct (Z.ltb_spec cols 0); [lia|].
Qed.

Lemma operator_perms_eq (self : Cavity2D.t) :
  let '(total_length, start, end_) := Cavity2D.geometry self in
  0 ≤ total_length →
  Cavity2D.operator_perms self
  = Ok (setitem_scalar (from end_) everything (Cavity2D.buffer_permittivity self)
       (setitem_scalar everything (from end_) (Cavity2D.buffer_permittivity self)
       (setitem_scalar (up_to start) everything (Cavity2D.buffer_permittivity self)
       (setitem_scalar everything (up_to start) (Cavity2D.buffer_permittivity self)
       (replicate (Z.to_nat total_length) (replicate (Z.to_nat total_length) 1%float)))))).
Proof.
  unfold Cavity2D.operator_perms. simpl. intros Htotal. by rewrite np_ones_ok.
Qed.

Lemma rect_operator_perms (self : Cavity2D.t) (perms : grid) :
  Cavity2D.operator_perms self = Ok perms →
  let n := Z.to_nat (Cavity2D.geometry self).1.1 in rect n n perms.
Proof.
  unfold Cavity2D.operator_perms. simpl.
  destruct (np_ones _ _) as [ones|e] eqn:Hones; simpl; [|done].
  intros [= <-]. do 4 apply rect_setitem_scalar.
  unfold np_ones in Hones. destruct (_ || _); [done|].
  injection Hones as <-. apply rect_replicate.
Qed.

(** C3. With [device_size], [pml_thickness] and [buffer_thickness] cells (any
    of them may be zero), the padded grid has
    [device_size + 2 * pml_thickness + 2 * buffer_thickness] cells a side and
    the device window runs from [start = pml_thickness + buffer_thickness] to
    [end = start + device_size], so [end - start = device_size]. This holds
    for every [SimulationData] object the constructor makes (an explicit
    source position always makes one) and for every [Cavity2D] object; the
    grids both classes allocate have that side length. *)
Theorem padded_grid_geometry (device_size pml_thickness buffer_thickness : Z) :
  0 ≤ device_size → 0 ≤ pml_thickness → 0 ≤ buffer_thickness →
  let total := device_size + 2 * pml_thickness + 2 * buffer_thickness in
  let start := pml_thickness + buffer_thickness in
  let end_ := start + device_size in
  end_ - start = device_size ∧
  (∀ eps omega src mode dl L0 self,
     Ok self ∈ SimulationData.init eps omega src mode device_size pml_thickness
                                   buffer_thickness dl L0 →
     SimulationData.total_grid_size self = total ∧
     SimulationData.window self = (start, end_) ∧
     ∃ vac_perm,
       np_ones (SimulationData.total_grid_size self) (SimulationData.total_grid_size self)
       = Ok vac_perm ∧
       rect (Z.to_nat total) (Z.to_nat total) vac_perm) ∧
  (∀ eps omega pos mode dl L0,
     ∃ self, SimulationData.init eps omega (Some pos) mode device_size pml_thickness
                                 buffer_thickness dl L0 = [Ok self]) ∧
  (∀ mode buffer_permittivity dl L0,
     let self := Cavity2D.Make mode device_size pml_thickness buffer_thickness
                               buffer_permittivity dl L0 in
     Cavity2D.geometry self = (total, start, end_) ∧
     ∃ perms, Cavity2D.operator_perms self = Ok perms ∧
              rect (Z.to_nat total) (Z.to_nat total) perms).
Proof.
  intros Hd Hp Hb total start end_. split_and!.
  - unfold end_. lia.
  - intros eps omega src mode dl L0 self [pos ->]%init_outcome. simpl.
    split_and!; [done..|]. fold total.
    eexists. split; [apply np_ones_ok; lia | apply rect_replicate].
  - intros eps omega pos mode dl L0. eexists. apply init_explicit.
  - intros mode bp dl L0 self.
    assert (Cavity2D.geometry self = (total, start, end_)) as Hgeo.
    { unfold Cavity2D.geometry, total, start, end_. simpl. f_equal. f_equal. lia. }
    split; [done|].
    pose proof (operator_perms_eq self) as Heq. rewrite Hgeo in Heq.
    eexists. split; [apply Heq; lia|].
    pose proof (rect_operator_perms self _ (Heq ltac:(lia))) as Hrect.
    by rewrite Hgeo in Hrect.
Qed.

Lemma padded_grid_geometry_witness :
  (0 ≤ 3 ∧ 0 ≤ 0 ∧ 0 ≤ 1) ∧
  Cavity2D.geometry (Cavity2D.Make "Ez" 3 0 1 (-1e20)%float 0.05%float 1e-6%float) = (5, 1, 4).
Proof.
  split; [lia|].
  apply (padded_grid_geometry 3 0 1 ltac:(lia) ltac:(lia) ltac:(lia)).
Defined.

(** ** Source position *)

Lemma default_source_excludes_last_buffer_cell :
  (0 ≤ 15 ≤ 16 - 1 ∧ 0 ≤ 0 < 4) ∧
  (15, 0) ∉ SimulationData.default_sources [] 1%float "Ez" 4 16 16 0.05%float 1e-6%float.
Proof.
  split; [lia|]. rewrite elem_of_default_sources by lia. lia.
Qed.

(** C7 (amended). An explicit source position is stored exactly as given.
    Without one, and with [2 <= buffer_thickness] and [1 <= device_size], the
    constructor returns in every outcome and the position is uniform over
    the pairs [(x, y)] with [0 <= x < buffer_thickness - 1] and
    [0 <= y < device_size]: each such pair is the position of exactly one of
    the [(buffer_thickness - 1) * device_size] equally likely outcomes, and no
    other position occurs. The column [x = buffer_thickness - 1] is never
    drawn. *)
Theorem default_source_position (eps : grid) (omega : float) (mode : string)
    (device_size pml_thickness buffer_thickness : Z) (dl L0 : float) :
  2 ≤ buffer_thickness → 1 ≤ device_size →
  let init := λ src, SimulationData.init eps omega src mode device_size pml_thickness
                                         buffer_thickness dl L0 in
  let sources := SimulationData.default_sources eps omega mode device_size pml_thickness
                                 buffer_thickness dl L0 in
  (∀ pos, ∃ self, init (Some pos) = [Ok self] ∧ SimulationData.source_pos self = pos) ∧
  Forall returned (init None) ∧
  length (init None) = Z.to_nat ((buffer_thickness - 1) * device_size) ∧
  NoDup sources ∧
  (∀ x y, (x, y) ∈ sources ↔ 0 ≤ x < buffer_thickness - 1 ∧ 0 ≤ y < device_size) ∧
  (∀ y, (buffer_thickness - 1, y) ∉ sources).
Proof.
  intros Hb Hd init sources. split_and!.
  - intros pos. eexists. split; [apply init_explicit | done].
  - unfold init. rewrite init_default by lia.
    apply Forall_bind, Forall_forall. intros x _.
    apply Forall_bind, Forall_forall. intros y _.
    apply Forall_singleton. by eexists.
  - unfold init. rewrite init_default by lia.
    rewrite (length_bind_const _ _ (Z.to_nat device_size)), length_seqZ;
      [by rewrite Z2Nat.inj_mul by lia|].
    intros x. rewrite (length_bind_const _ _ 1%nat), length_seqZ; [lia | done].
  - apply NoDup_default_sources; lia.
  - intros x y. apply elem_of_default_sources; lia.
  - intros y. unfold sources. rewrite elem_of_default_sources by lia. lia.
Qed.

Lemma default_source_position_witness :
  (2 ≤ 4 ∧ 1 ≤ 3) ∧
  length (SimulationData.init [] 1%float None "Ez" 3 16 4 0.05%float 1e-6%float) = 9%nat.
Proof.
  split; [lia|].
  apply (default_source_position [] 1%float "Ez" 3 16 4 0.05%float 1e-6%float
           ltac:(lia) ltac:(lia)).
Defined.

(** ** Proximity matrix *)

(** Turns the powers of two of the int64 bounds into numerals for [lia]. *)
Ltac pow2 :=
  change (2 ^ 64) with 18446744073709551616 in *;
  change (2 ^ 63) with 9223372036854775808 in *;
  change (2 ^ 62) with 4611686018427387904 in *;
  change (2 ^ 30) with 1073741824 in *.

Lemma wrap64_small (z : Z) : - 2 ^ 63 ≤ z < 2 ^ 63 → wrap64 z = z.
Proof. intros H. unfold wrap64. pow2. rewrite Z.mod_small; lia. Qed.

Lemma square_bound (a b : Z) : - b ≤ a ≤ b → 0 ≤ a * a ≤ b * b.
Proof.
  intros H. assert (0 ≤ (b - a) * (b + a)) by (apply Z.mul_nonneg_nonneg; lia).
  split; [apply Z.square_nonneg | lia].
Qed.

(** Away from overflow the int64 lattice is the squared distance to the
    source, in window coordinates. *)
Lemma d2_window (sx sy start x y : Z) :
  0 ≤ start ≤ 2 ^ 30 → - 2 ^ 30 ≤ sx ≤ 2 ^ 30 → - 2 ^ 30 ≤ sy ≤ 2 ^ 30 →
  0 ≤ x < 2 ^ 30 → 0 ≤ y < 2 ^ 30 →
  SimulationData.d2 (add64 sx start) (add64 sy start) (start + x) (start + y)
  = (x - sx) ^ 2 + (y - sy) ^ 2
  ∧ add64 1 (SimulationData.d2 (add64 sx start) (add64 sy start) (start + x) (start + y))
  = 1 + ((x - sx) ^ 2 + (y - sy) ^ 2).
Proof.
  intros Hs Hsx Hsy Hx Hy. unfold SimulationData.d2, add64, sub64, sqr64.
  pose proof wrap64_small as Hwrap. pow2.
  rewrite (Hwrap (sx + start)), (Hwrap (sy + start)) by lia.
  rewrite (Hwrap (start + x - _)), (Hwrap (start + y - _)) by lia.
  replace (start + x - (sx + start)) with (x - sx) by lia.
  replace (start + y - (sy + start)) with (y - sy) by lia.
  pose proof (square_bound (x - sx) 2147483647 ltac:(lia)) as Hxx.
  pose proof (square_bound (y - sy) 2147483647 ltac:(lia)) as Hyy.
  rewrite !(Hwrap (_ * _)) by lia.
  rewrite !Z.pow_2_r.
  rewrite (Hwrap ((x - sx) * (x - sx) + _)) by lia.
  split; [done|]. apply Hwrap. lia.
Qed.

Section proximity.
Import SimulationData.
Context (self : t).

Local Abbreviation x0 := (shifted_source self (window self).1).1.
Local Abbreviation y0 := (shifted_source self (window self).1).2.
Local Abbreviation clip :=
  (getitem (A := float) (from_to (window self).1 (window self).2)
           (from_to (window self).1 (window self).2)).
Local Abbreviation nested_clip :=
  (getitem_nested (A := float) (from_to (window self).1 (window self).2)
                  (from_to (window self).1 (window self).2)).

Lemma getitem_nested_ok {A} (rs cs : slice) (rows cols : nat) (a : list (list A)) :
  rect rows cols a → (0 < rows)%nat → getitem_nested rs cs a = Ok (getitem rs cs a).
Proof. intros [Hr _] Hpos. destruct a; [simpl in Hr; lia | done]. Qed.

Lemma getitem_nested_empty {A} (rs cs : slice) (cols : nat) (a : list (list A)) :
  rect 0 cols a → getitem_nested rs cs a = Raise (IndexError "too many indices for array").
Proof. intros [Hr _]. by destruct a. Qed.

Lemma clip_table (f : Z → float) (g : Z → Z → Z) :
  0 < total_grid_size self →
  nested_clip (map2d f (table (total_grid_size self) g))
  = Ok (clip (map2d f (table (total_grid_size self) g))).
Proof.
  intros Hn.
  apply (getitem_nested_ok _ _ (Z.to_nat (total_grid_size self))
                           (Z.to_nat (total_grid_size self)));
    [apply rect_map2d, rect_table | lia].
Qed.

Lemma proximity_linear :
  0 < total_grid_size self →
  get_proximity_matrix self "linear"
  = Ok (Some (clip (map2d (λ k, PrimFloat.sqrt (float_of_int64 k))
                      (table (total_grid_size self) (d2 x0 y0))))).
Proof.
  intros Hn.
  change (get_proximity_matrix self "linear")
    with (m ← nested_clip (map2d (λ k, PrimFloat.sqrt (float_of_int64 k))
                             (table (total_grid_size self) (d2 x0 y0)));
          mret (M := result) (Some m)).
  by rewrite clip_table.
Qed.

Lemma proximity_squared :
  0 < total_grid_size self →
  get_proximity_matrix self "squared"
  = Ok (Some (clip (map2d float_of_int64 (table (total_grid_size self) (d2 x0 y0))))).
Proof.
  intros Hn.
  change (get_proximity_matrix self "squared")
    with (m ← nested_clip (map2d float_of_int64 (table (total_grid_size self) (d2 x0 y0)));
          mret (M := result) (Some m)).
  by rewrite clip_table.
Qed.

Lemma proximity_inv_linear :
  0 < total_grid_size self →
  get_proximity_matrix self "inv_linear"
  = Ok (Some (map2d (λ v, 1 / v)%float
               (clip (map2d (λ k, PrimFloat.sqrt (float_of_int64 k))
                        (table (total_grid_size self) (λ x y, add64 1 (d2 x0 y0 x y))))))).
Proof.
  intros Hn.
  change (get_proximity_matrix self "inv_linear")
    with (m ← nested_clip (map2d (λ k, PrimFloat.sqrt (float_of_int64 k))
                             (table (total_grid_size self) (λ x y, add64 1 (d2 x0 y0 x y))));
          mret (M := result) (Some (map2d (λ v, 1 / v)%float m))).
  by rewrite clip_table.
Qed.

Lemma proximity_inv_squared :
  0 < total_grid_size self →
  get_proximity_matrix self "inv_squared"
  = Ok (Some (map2d (λ v, 1 / v)%float
               (clip (map2d float_of_int64
                        (table (total_grid_size self) (λ x y, add64 1 (d2 x0 y0 x y))))))).
Proof.
  intros Hn.
  change (get_proximity_matrix self "inv_squared")
    with (m ← nested_clip (map2d float_of_int64
                             (table (total_grid_size self) (λ x y, add64 1 (d2 x0 y0 x y))));
          mret (M := result) (Some (map2d (λ v, 1 / v)%float m))).
  by rewrite clip_table.
Qed.

(** With an empty padded grid the nested list has no rows, and the slice
    of every known transform raises. *)
Lemma proximity_empty (mode : string) :
  total_grid_size self ≤ 0 →
  mode = "linear" ∨ mode = "squared" ∨ mode = "inv_linear" ∨ mode = "inv_squared" →
  get_proximity_matrix self mode = Raise (IndexError "too many indices for array").
Proof.
  intros Hn Hmode.
  assert (∀ (f : Z → float) (g : Z → Z → Z),
            nested_clip (map2d f (table (total_grid_size self) g))
            = Raise (IndexError "too many indices for array")) as Hclip.
  { intros f g. apply (getitem_nested_empty _ _ 0).
    apply rect_map2d.
    replace 0%nat with (Z.to_nat (total_grid_size self)) by lia. apply rect_table. }
  destruct Hmode as [-> | [-> | [-> | ->]]].
  - change (get_proximity_matrix self "linear")
      with (m ← nested_clip (map2d (λ k, PrimFloat.sqrt (float_of_int64 k))
                               (table (total_grid_size self) (d2 x0 y0)));
            mret (M := result) (Some m)).
    by rewrite Hclip.
  - change (get_proximity_matrix self "squared")
      with (m ← nested_clip (map2d float_of_int64
                               (table (total_grid_size self) (d2 x0 y0)));
            mret (M := result) (Some m)).
    by rewrite Hclip.
  - change (get_proximity_matrix self "inv_linear")
      with (m ← nested_clip (map2d (λ k, PrimFloat.sqrt (float_of_int64 k))
                               (table (total_grid_size self)
                                      (λ x y, add64 1 (d2 x0 y0 x y))));
            mret (M := result) (Some (map2d (λ v, 1 / v)%float m))).
    by rewrite Hclip.
  - change (get_proximity_matrix self "inv_squared")
      with (m ← nested_clip (map2d float_of_int64
                               (table (total_grid_size self)
                                      (λ x y, add64 1 (d2 x0 y0 x y))));
            mret (M := result) (Some (map2d (λ v, 1 / v)%float m))).
    by rewrite Hclip.
Qed.

(** Any other transform name matches no branch. *)
Lemma proximity_unknown (mode : string) :
  mode ≠ "linear" → mode ≠ "squared" → mode ≠ "inv_linear" → mode ≠ "inv_squared" →
  get_proximity_matrix self mode = Ok None.
Proof.
  intros H1 H2 H3 H4. unfold get_proximity_matrix.
  destruct (window self) as [start end_], (shifted_source self start) as [a b].
  by repeat case_decide.
Qed.

End proximity.

(** C4. For a source at [(x0, y0)] in device-window coordinates and the
    cell [(x, y)] of the device window, with [d2 = (x-x0)^2 + (y-y0)^2], the
    matrix [f[y][x]] returned by [get_proximity_matrix] is [sqrt d2] for
    "linear", [d2] for "squared", [1 / sqrt (1 + d2)] for "inv_linear" and
    [1 / (1 + d2)] for "inv_squared"; each matrix is clipped to the device
    window. In particular, for a 3 x 3 device and the source at [(0, 0)],
    [squared[1][1] = 2], [inv_squared[0][0] = 1.0] and
    [linear[2][2] = sqrt 8]. The padded grid has at least one cell (with
    none, the slice of the empty array raises: [proximity_empty]), and the
    sizes are bounded so that the int64 lattice does not overflow. *)
Theorem proximity_matrix_transforms (eps : grid) (omega : float) (md : string)
    (device_size pml_thickness buffer_thickness : Z) (dl L0 : float) (x0 y0 : Z) :
  0 ≤ device_size → 0 ≤ pml_thickness → 0 ≤ buffer_thickness →
  0 < device_size + 2 * pml_thickness + 2 * buffer_thickness →
  device_size + 2 * pml_thickness + 2 * buffer_thickness ≤ 2 ^ 30 →
  - 2 ^ 30 ≤ x0 ≤ 2 ^ 30 → - 2 ^ 30 ≤ y0 ≤ 2 ^ 30 →
  ∃ self linear squared inv_linear inv_squared,
    SimulationData.init eps omega (Some (x0, y0)) md device_size pml_thickness
                        buffer_thickness dl L0 = [Ok self] ∧
    SimulationData.get_proximity_matrix self "linear" = Ok (Some linear) ∧
    SimulationData.get_proximity_matrix self "squared" = Ok (Some squared) ∧
    SimulationData.get_proximity_matrix self "inv_linear" = Ok (Some inv_linear) ∧
    SimulationData.get_proximity_matrix self "inv_squared" = Ok (Some inv_squared) ∧
    Forall (rect (Z.to_nat device_size) (Z.to_nat device_size))
           [linear; squared; inv_linear; inv_squared] ∧
    (∀ x y : nat, Z.of_nat x < device_size → Z.of_nat y < device_size →
       let d2 := (Z.of_nat x - x0) ^ 2 + (Z.of_nat y - y0) ^ 2 in
       cell linear y x = Some (PrimFloat.sqrt (float_of_int64 d2)) ∧
       cell squared y x = Some (float_of_int64 d2) ∧
       cell inv_linear y x = Some (1 / PrimFloat.sqrt (float_of_int64 (1 + d2)))%float ∧
       cell inv_squared y x = Some (1 / float_of_int64 (1 + d2))%float) ∧
    (device_size = 3 → x0 = 0 → y0 = 0 →
       cell squared 1 1 = Some 2%float ∧
       cell inv_squared 0 0 = Some 1%float ∧
       cell linear 2 2 = Some (PrimFloat.sqrt 8)).
Proof.
  intros Hd Hp Hb Hcells Htotal Hx0 Hy0.
  set (total := device_size + 2 * pml_thickness + 2 * buffer_thickness) in *.
  set (start := pml_thickness + buffer_thickness).
  eexists _, _, _, _, _.
  split; [apply init_explicit|].
  rewrite proximity_linear, proximity_squared, proximity_inv_linear, proximity_inv_squared
    by done.
  do 4 (split; [reflexivity|]). simpl. fold total start.
  assert (∀ f : Z → Z → Z, rect (Z.to_nat total) (Z.to_nat total) (table total f))
    as Htable by (intros; apply rect_table).
  assert (∀ (f : Z → float) (g : Z → Z → Z),
            rect (Z.to_nat device_size) (Z.to_nat device_size)
              (getitem (from_to start (start + device_size))
                       (from_to start (start + device_size))
                       (map2d f (table total g)))) as Hclip.
  { intros f g. replace device_size with (start + device_size - start) at 1 2 by lia.
    apply (rect_getitem (Z.to_nat total) (Z.to_nat total));
      [by apply rect_map2d | unfold total, start in *; lia..]. }
  assert (∀ (f : Z → float) (g : Z → Z → Z) (x y : nat),
            Z.of_nat x < device_size → Z.of_nat y < device_size →
            cell (getitem (from_to start (start + device_size))
                          (from_to start (start + device_size))
                          (map2d f (table total g))) y x
            = Some (f (g (start + Z.of_nat x) (start + Z.of_nat y)))) as Hcell.
  { intros f g x y Hx Hy.
    rewrite (cell_getitem (Z.to_nat total) (Z.to_nat total));
      [|by apply rect_map2d | unfold total, start in *; lia..].
    rewrite cell_map2d, cell_table by (unfold total, start in *; lia).
    simpl. do 3 f_equal; lia. }
  assert (∀ x y : nat, Z.of_nat x < device_size → Z.of_nat y < device_size →
            let d2 := (Z.of_nat x - x0) ^ 2 + (Z.of_nat y - y0) ^ 2 in
            SimulationData.d2 (add64 x0 start) (add64 y0 start)
                              (start + Z.of_nat x) (start + Z.of_nat y) = d2 ∧
            add64 1 (SimulationData.d2 (add64 x0 start) (add64 y0 start)
                                       (start + Z.of_nat x) (start + Z.of_nat y)) = 1 + d2)
    as Hd2.
  { intros x y Hx Hy. apply d2_window; unfold total, start in *; pow2; lia. }
  split_and!.
  - repeat apply Forall_cons_2; [apply Hclip | apply Hclip | | | apply Forall_nil_2];
      apply rect_map2d, Hclip.
  - intros x y Hx Hy. destruct (Hd2 x y Hx Hy) as [Hsq Hinv].
    rewrite !cell_map2d, !Hcell by done. by rewrite Hinv, Hsq.
  - intros -> -> ->.
    destruct (Hd2 1%nat 1%nat ltac:(lia) ltac:(lia)) as [H11 _].
    destruct (Hd2 0%nat 0%nat ltac:(lia) ltac:(lia)) as [_ H00].
    destruct (Hd2 2%nat 2%nat ltac:(lia) ltac:(lia)) as [H22 _].
    rewrite !cell_map2d, !Hcell by lia. rewrite H00, H11, H22.
    split_and!; vm_compute; reflexivity.
Qed.

Lemma proximity_matrix_transforms_witness :
  (0 ≤ 3 ∧ 0 ≤ 1 ∧ 0 ≤ 1 ∧ 0 < 3 + 2 * 1 + 2 * 1 ∧ 3 + 2 * 1 + 2 * 1 ≤ 2 ^ 30 ∧
   - 2 ^ 30 ≤ 0 ≤ 2 ^ 30 ∧ - 2 ^ 30 ≤ 0 ≤ 2 ^ 30) ∧
  ∃ self squared,
    SimulationData.init [] 1%float (Some (0, 0)) "Ez" 3 1 1 0.05%float 1e-6%float = [Ok self] ∧
    SimulationData.get_proximity_matrix self "squared" = Ok (Some squared) ∧
    cell squared 1 1 = Some 2%float.
Proof.
  assert (0 ≤ 3 ∧ 0 ≤ 1 ∧ 0 ≤ 1 ∧ 0 < 3 + 2 * 1 + 2 * 1 ∧ 3 + 2 * 1 + 2 * 1 ≤ 2 ^ 30 ∧
          - 2 ^ 30 ≤ 0 ≤ 2 ^ 30 ∧ - 2 ^ 30 ≤ 0 ≤ 2 ^ 30) as H by (pow2; lia).
  split; [exact H|].
  destruct H as (H1 & H2 & H3 & Hc & H4 & H5 & H6).
  destruct (proximity_matrix_transforms [] 1%float "Ez" 3 1 1 0.05%float 1e-6%float 0 0
              H1 H2 H3 Hc H4 H5 H6)
    as (self & lin & sq & il & isq & Hinit & _ & Hsq & _ & _ & _ & _ & Hpart).
  exists self, sq. split_and!; [done..|]. by apply Hpart.
Defined.

(** C6 (what the code does). A transform name outside the four known ones
    matches no branch of [get_proximity_matrix]: the call returns [None]
    and raises nothing. *)
Theorem unknown_transform_returns_None (self : SimulationData.t) (mode : string) :
  mode ≠ "linear" → mode ≠ "squared" → mode ≠ "inv_linear" → mode ≠ "inv_squared" →
  SimulationData.get_proximity_matrix self mode = Ok None ∧
  ¬ raised (SimulationData.get_proximity_matrix self mode).
Proof.
  intros H1 H2 H3 H4. rewrite proximity_unknown by done.
  split; [done|]. by intros [e He].
Qed.

Lemma unknown_transform_returns_None_witness :
  SimulationData.get_proximity_matrix
    (SimulationData.Make [] 1%float "Ez" 3 1 1 7 0.05%float 1e-6%float (0, 0) None None None)
    "cubic" = Ok None.
Proof.
  by apply (unknown_transform_returns_None _ "cubic").
Defined.

(** ** Cavity2D.solve *)

Lemma rect_setitem_block rows cols rs cs (b a a' : grid) :
  rect rows cols a → setitem_block rs cs b a = Ok a' → rect rows cols a'.
Proof.
  intros [Hr Hc]. unfold setitem_block. destruct (shape b) as [hb wb].
  destruct (_ && _); [|done]. intros [= <-]. split; [by rewrite length_imap|].
  intros i row (row0 & Hrow & ->)%list_lookup_imap_Some.
  destruct (in_slice rs (length a) i); [rewrite length_imap|]; eauto.
Qed.

Lemma setitem_block_ok rows cols (lo hi : Z) (b a : grid) :
  rect rows cols a → (0 < rows)%nat →
  0 ≤ lo ≤ hi → hi ≤ Z.of_nat rows → hi ≤ Z.of_nat cols →
  shape b = (Z.to_nat (hi - lo), Z.to_nat (hi - lo)) →
  ∃ a', setitem_block (from_to lo hi) (from_to lo hi) b a = Ok a'.
Proof.
  intros Hrect Hpos Hlo Hrows Hcols Hb. unfold setitem_block.
  rewrite Hb. rewrite (rect_shape rows cols a Hrect Hpos). simpl.
  destruct Hrect as [-> _]. unfold slice_length.
  rewrite !slice_start_from_to, !slice_stop_from_to by lia.
  replace (Z.to_nat hi - Z.to_nat lo)%nat with (Z.to_nat (hi - lo)) by lia.
  rewrite Nat.eqb_refl. simpl. by eexists.
Qed.

Lemma py_index_is_Some (len : nat) (i : Z) :
  - Z.of_nat len ≤ i < Z.of_nat len → is_Some (py_index len i).
Proof.
  intros H. unfold py_index.
  destruct (Z.leb_spec 0 i), (Z.ltb_spec i (Z.of_nat len)); simpl; eauto; try lia.
  destruct (Z.leb_spec (- Z.of_nat len) i), (Z.ltb_spec i 0); simpl; eauto; lia.
Qed.

Lemma setitem_cell_ok {A} (n : nat) (a : list (list A)) (i j : Z) (v : A) :
  rect n n a → - Z.of_nat n ≤ i < Z.of_nat n → - Z.of_nat n ≤ j < Z.of_nat n →
  ∃ a', setitem_cell i j v a = Ok a'.
Proof.
  intros Hrect Hi Hj. unfold setitem_cell.
  assert (0 < n)%nat as Hpos by lia.
  rewrite (rect_shape n n a Hrect Hpos). simpl. destruct Hrect as [-> _].
  destruct (py_index_is_Some n i Hi) as [i' ->], (py_index_is_Some n j Hj) as [j' ->].
  by eexists.
Qed.

Lemma cavity_solve_keeps_self (B : Backend) (self : Cavity2D.t) (epsilons : grid)
    (omega : float) (src_x src_y : option Z) :
  (Cavity2D.solve B epsilons omega src_x src_y self).1 = self.
Proof.
  unfold Cavity2D.solve, m_bind, m_self, m_lift, m_ret. simpl.
  repeat (case_match; simpl; try done).
Qed.

Lemma cavity_solve_raises (B : Backend) (self : Cavity2D.t) (epsilons : grid)
    (omega : float) (src_x src_y : option Z) :
  Cavity2D.mode self ≠ "Ez" → Cavity2D.mode self ≠ "Hz" →
  raised (Cavity2D.solve B epsilons omega src_x src_y self).2.
Proof.
  intros HEz HHz.
  unfold Cavity2D.solve, m_bind, m_self, m_lift, m_ret. simpl.
  repeat (case_match; simpl; try done); by eexists.
Qed.

(** ** Flattening *)

Section flattening.
Context {A : Type}.
Implicit Types (a : list (list A)) (v : list A).

Lemma rect_cons rows cols row a :
  rect (S rows) cols (row :: a) ↔ length row = cols ∧ rect rows cols a.
Proof.
  unfold rect. simpl. split.
  - intros [Hlen Hrows]. split_and!; [apply (Hrows 0%nat); done | lia |].
    intros i r Hr. by apply (Hrows (S i)).
  - intros (Hrow & Hlen & Hrows). split; [lia|].
    intros [|i] r; simpl; [by intros [= <-] | apply Hrows].
Qed.




Lemma flatten_reshape rows cols v :
  length v = (rows * cols)%nat →
  flatten (reshape rows cols v) = v ∧ rect rows cols (reshape rows cols v).
Proof.
  revert v. induction rows as [|rows IH]; intros v Hlen.
  - destruct v; [|done]. split; [done|]. split; [done|]. by intros i row.
  - simpl. destruct (IH (drop cols v)) as [Hflat Hrect]; [rewrite length_drop; lia|].
    split.
    + unfold flatten in *. simpl. by rewrite Hflat, take_drop.
    + apply rect_cons. split; [rewrite length_take; lia | done].
Qed.

End flattening.

(** ** The material operator *)




Lemma get_A_ops_2d_eq (B : Backend) (K : constants) (epsilons : grid) (npml : Z)
    (omega dl L0 : float) :
  check_inputs B omega epsilons dl [npml; npml] "Ez" L0 = None →
  get_A_ops_2d B K epsilons npml omega dl L0
  = let d := assemble B omega (shape epsilons) dl [npml; npml] "Ez" L0 in
    let M := ((shape epsilons).1 * (shape epsilons).2)%nat in
    Ok (todense B (matadd B (matmul B (Dxf d) (Dxb d)) (matmul B (Dyf d) (Dyb d))),
        dia_todense (dia_scale (float_pow B omega 2 * MU0 K * L0)%float
          (spdiags ((λ e, EPSILON0 K * L0 * e)%float <$> flatten epsilons) M M))).
Proof. intros Hcheck. unfold get_A_ops_2d, new_Simulation. by rewrite Hcheck. Qed.








(** ** The curl-curl operator *)

(** C2. For two permittivity grids of the same shape and the same [npml],
    [omega], [dl] and [L0] (both accepted by the solver's constructor),
    [get_A_ops_2d] returns the same curl-curl matrix: it is
    [Dxf @ Dxb + Dyf @ Dyb] over the derivative operators of the
    simulation, which are assembled from the grid's shape and the
    configuration and not from the permittivity values. *)
Theorem curl_curl_independent_of_permittivity (B : Backend) (K : constants)
    (epsilons1 epsilons2 : grid) (npml : Z) (omega dl L0 : float) :
  shape epsilons1 = shape epsilons2 →
  check_inputs B omega epsilons1 dl [npml; npml] "Ez" L0 = None →
  check_inputs B omega epsilons2 dl [npml; npml] "Ez" L0 = None →
  ∃ curl_curl material1 material2,
    get_A_ops_2d B K epsilons1 npml omega dl L0 = Ok (curl_curl, material1) ∧
    get_A_ops_2d B K epsilons2 npml omega dl L0 = Ok (curl_curl, material2) ∧
    curl_curl
    = let d := unpack_derivs (assemble B omega (shape epsilons1) dl [npml; npml] "Ez" L0) in
      let '(Dyb, Dxb, Dxf, Dyf) := d in
      todense B (matadd B (matmul B Dxf Dxb) (matmul B Dyf Dyb)).
Proof.
  intros Hshape Hc1 Hc2. rewrite !get_A_ops_2d_eq by done. simpl.
  rewrite <- Hshape. by eexists _, _, _.
Qed.

Lemma curl_curl_independent_of_permittivity_witness :
  (shape [[1; 2]; [3; 4]]%float = shape [[5; 6]; [7; 8]]%float) ∧
  ∃ material1 material2,
    get_A_ops_2d stub sample_constants [[1; 2]; [3; 4]]%float 0 1.215e15%float
                 0.05%float 1e-6%float = Ok (tt, material1) ∧
    get_A_ops_2d stub sample_constants [[5; 6]; [7; 8]]%float 0 1.215e15%float
                 0.05%float 1e-6%float = Ok (tt, material2).
Proof.
  split; [done|].
  destruct (curl_curl_independent_of_permittivity stub sample_constants
              [[1; 2]; [3; 4]]%float [[5; 6]; [7; 8]]%float 0 1.215e15%float
              0.05%float 1e-6%float eq_refl eq_refl eq_refl)
    as (cc & m1 & m2 & H1 & H2 & _).
  destruct cc. by exists m1, m2.
Defined.

(** ** Cavity2D.get_operators *)


Lemma rect_square_shape {A} (n : nat) (a : list (list A)) : rect n n a → shape a = (n, n).
Proof.
  intros Hrect. destruct (decide (n = 0)%nat) as [->|Hn].
  - destruct Hrect as [Hlen _]. by destruct a.
  - apply rect_shape; [done | lia].
Qed.



(** ** Permittivity generators *)

Lemma elem_of_randint (low high : Z) (r : result Z) :
  r ∈ randint low high ↔
  (∃ z, r = Ok z ∧ low ≤ z < high) ∨ (high ≤ low ∧ r = Raise (empty_range low)).
Proof.
  destruct (decide (low < high)) as [Hlt|Hge].
  - rewrite randint_ok, list_elem_of_fmap by done. split.
    + intros (z & -> & Hz%elem_of_seqZ). left. exists z. split; [done | lia].
    + intros [(z & -> & Hz) | [? _]]; [|lia]. exists z. split; [done|].
      apply elem_of_seqZ. lia.
  - rewrite randint_empty, list_elem_of_singleton by lia. split.
    + intros ->. right. split; [lia | done].
    + intros [(z & _ & Hz) | [_ ->]]; [lia | done].
Qed.

Lemma elem_of_randint2 (low high : Z) (r : result (Z * Z)) :
  r ∈ randint2 low high ↔
  (∃ a b, r = Ok (a, b) ∧ low ≤ a < high ∧ low ≤ b < high)
  ∨ (high ≤ low ∧ r = Raise (empty_range low)).
Proof.
  unfold randint2. rewrite elem_of_rand_bind. split.
  - intros [(a & Ha & Hr) | (e & He & ->)].
    + apply elem_of_randint in Ha as [(? & [= <-] & Ha) | [_ [=]]].
      apply elem_of_rand_bind in Hr as [(b & Hb & Hr) | (e & He & ->)].
      * apply elem_of_randint in Hb as [(? & [= <-] & Hb) | [_ [=]]].
        apply list_elem_of_singleton in Hr as ->. left. by exists a, b.
      * apply elem_of_randint in He as [(? & [=] & _) | [Hge [= ->]]]. lia.
    + apply elem_of_randint in He as [(? & [=] & _) | [Hge [= ->]]]. by right.
  - intros [(a & b & -> & Ha & Hb) | [Hge ->]].
    + left. exists a. split; [apply elem_of_randint; left; by exists a|].
      apply elem_of_rand_bind. left. exists b.
      split; [apply elem_of_randint; left; by exists b | by apply list_elem_of_singleton].
    + right. eexists. split; [|done]. apply elem_of_randint. by right.
Qed.

Lemma perm_ellipse_outcome (K : constants) (s : Z) (r : result grid) :
  33 ≤ s →
  r ∈ perm_ellipse K s ↔
  ∃ x0 y0 rx ry,
    (16 ≤ x0 < s - 16 ∧ 16 ≤ y0 < s - 16) ∧ (5 ≤ rx < 16 ∧ 5 ≤ ry < 16) ∧
    r = Ok (ellipse_block K s (replicate (Z.to_nat s) (replicate (Z.to_nat s) 1%float))
                          x0 y0 rx ry).
Proof.
  intros Hs. unfold perm_ellipse, rand_lift. rewrite np_ones_ok by lia.
  rewrite elem_of_rand_bind. split.
  - intros [(ones & Hones & Hr) | (e & He & _)];
      [|by apply list_elem_of_singleton in He].
    apply list_elem_of_singleton in Hones as [= ->].
    apply elem_of_rand_bind in Hr as [([x0 y0] & Hc & Hr) | (e & He & _)];
      [|apply elem_of_randint2 in He as [(? & ? & [=] & _) | [? _]]; lia].
    apply elem_of_randint2 in Hc as [(? & ? & [= <- <-] & Hx & Hy) | [? _]]; [|lia].
    apply elem_of_rand_bind in Hr as [([rx ry] & Hc & Hr) | (e & He & _)];
      [|apply elem_of_randint2 in He as [(? & ? & [=] & _) | [? _]]; lia].
    apply elem_of_randint2 in Hc as [(? & ? & [= <- <-] & Hrx & Hry) | [? _]]; [|lia].
    apply list_elem_of_singleton in Hr as ->. by exists x0, y0, rx, ry.
  - intros (x0 & y0 & rx & ry & [Hx Hy] & [Hrx Hry] & ->).
    left. eexists. split; [by apply list_elem_of_singleton|].
    apply elem_of_rand_bind. left. exists (x0, y0).
    split; [apply elem_of_randint2; left; by exists x0, y0|].
    apply elem_of_rand_bind. left. exists (rx, ry).
    split; [apply elem_of_randint2; left; by exists rx, ry|].
    by apply list_elem_of_singleton.
Qed.

Lemma cell_setitem_mask {A} (mask : list (list bool)) (v : A) (a : list (list A))
    (i j : nat) (m : bool) (x : A) :
  cell mask i j = Some m → cell a i j = Some x →
  cell (setitem_mask mask v a) i j = Some (if m then v else x).
Proof.
  intros Hm (row & Hrow & Hx)%cell_Some. unfold cell at 1, setitem_mask.
  rewrite list_lookup_imap, Hrow. simpl. by rewrite list_lookup_imap, Hx, Hm.
Qed.

Lemma cell_ellipse_block (K : constants) (s x0 y0 rx ry : Z) (x y : nat) :
  Z.of_nat x < s → Z.of_nat y < s →
  cell (ellipse_block K s (replicate (Z.to_nat s) (replicate (Z.to_nat s) 1%float))
                      x0 y0 rx ry) y x
  = Some (if (ellipse_form x0 y0 rx ry (Z.of_nat x) (Z.of_nat y) <=? 1)%float
          then 1%float else eps_si K).
Proof.
  intros Hx Hy. unfold ellipse_block.
  erewrite cell_setitem_mask;
    [| by rewrite cell_map2d, cell_table | by apply cell_replicate; lia].
  by destruct (_ <=? _)%float.
Qed.

(** C8 (what the code does). For [33 <= s] every call of [perm_ellipse]
    returns a block for some centre [(x0, y0)] in [16, s-16) and radii
    [rx, ry] in [5, 16). In that block the cells ON the ellipse
    ([((x-x0)/rx)^2 + ((y-y0)/ry)^2 <= 1]) keep the value 1.0 and every
    other cell is set to [eps_si]: the mask [ellipse < 1.0] selects the
    cells where the comparison [<= 1] is false. *)
Theorem perm_ellipse_fills_outside (K : constants) (s : Z) :
  33 ≤ s →
  Forall returned (perm_ellipse K s) ∧
  ∀ p_matrix, Ok p_matrix ∈ perm_ellipse K s →
    ∃ x0 y0 rx ry,
      (16 ≤ x0 < s - 16 ∧ 16 ≤ y0 < s - 16) ∧ (5 ≤ rx < 16 ∧ 5 ≤ ry < 16) ∧
      ∀ x y : nat, Z.of_nat x < s → Z.of_nat y < s →
        cell p_matrix y x
        = Some (if (ellipse_form x0 y0 rx ry (Z.of_nat x) (Z.of_nat y) <=? 1)%float
                then 1%float else eps_si K).
Proof.
  intros Hs. split.
  - apply Forall_forall. intros r (x0 & y0 & rx & ry & _ & _ & ->)%perm_ellipse_outcome;
      [by eexists | done].
  - intros p_matrix (x0 & y0 & rx & ry & Hc & Hr & [= ->])%perm_ellipse_outcome; [|done].
    exists x0, y0, rx, ry. split_and!; [lia..|].
    intros x y Hx Hy. by apply cell_ellipse_block.
Qed.

Lemma perm_ellipse_fills_outside_witness :
  33 ≤ 64 ∧ Forall returned (perm_ellipse sample_constants 64).
Proof.
  split; [lia|]. apply (perm_ellipse_fills_outside sample_constants 64). lia.
Defined.

(** One outcome at the default size: the centre of the ellipse stays 1.0,
    the corner of the block becomes [eps_si]. *)
Lemma perm_ellipse_centre_stays_vacuum :
  let block := ellipse_block sample_constants 64 (replicate 64 (replicate 64 1%float))
                             32 32 5 5 in
  Ok block ∈ perm_ellipse sample_constants 64 ∧
  cell block 32 32 = Some 1%float ∧
  cell block 0 0 = Some (eps_si sample_constants).
Proof.
  intros block. split_and!.
  - apply perm_ellipse_outcome; [lia|]. exists 32, 32, 5, 5. split_and!; [lia..|done].
  - unfold block. by rewrite (cell_ellipse_block _ 64 32 32 5 5 32 32).
  - unfold block. by rewrite (cell_ellipse_block _ 64 32 32 5 5 0 0).
Qed.

(** X1. The sibling generator [perm_rectangle] does fill its inclusion:
    the cells of the drawn rectangle get [eps_si], the others stay 1.0. *)
Lemma perm_rectangle_fills_inside (K : constants) (s : Z) (p_matrix : grid) :
  33 ≤ s → s < 2 ^ 62 → Ok p_matrix ∈ perm_rectangle K s →
  ∃ x0 y0 dx dy,
    (16 ≤ x0 < s - 16 ∧ 16 ≤ y0 < s - 16) ∧ (5 ≤ dx < 16 ∧ 5 ≤ dy < 16) ∧
    ∀ i j : nat, Z.of_nat i < s → Z.of_nat j < s →
      cell p_matrix i j
      = Some (if bool_decide (x0 ≤ Z.of_nat i < x0 + dx ∧ y0 ≤ Z.of_nat j < y0 + dy)
              then eps_si K else 1%float).
Proof.
  intros Hs Hbig. unfold perm_rectangle, rand_lift. rewrite np_ones_ok by lia.
  intros [(ones & Hones & Hr) | (e & _ & [=])]%elem_of_rand_bind.
  apply list_elem_of_singleton in Hones as [= ->].
  apply elem_of_rand_bind in Hr as [([x0 y0] & Hc & Hr) | (e & _ & [=])].
  apply elem_of_randint2 in Hc as [(? & ? & [= <- <-] & Hx & Hy) | [? _]]; [|lia].
  apply elem_of_rand_bind in Hr as [([dx dy] & Hc & Hr) | (e & _ & [=])].
  apply elem_of_randint2 in Hc as [(? & ? & [= <- <-] & Hdx & Hdy) | [? _]]; [|lia].
  apply list_elem_of_singleton in Hr as [= ->].
  exists x0, y0, dx, dy. split_and!; [lia..|].
  intros i j Hi Hj. unfold add64. pose proof wrap64_small as Hwrap. pow2.
  rewrite !Hwrap by lia.
  rewrite (cell_setitem_scalar (Z.to_nat s) (Z.to_nat s) _ _ _ _ i j 1%float);
    [| apply rect_replicate | apply cell_replicate; lia].
  rewrite !in_slice_from_to by lia. f_equal.
  repeat case_bool_decide; simpl; try done; lia.
Qed.

(** ** create_dataset *)

Lemma require_group_existing (name : string) (f : h5file) (members : gmap string node) :
  f !! name = Some (Group members) → require_group name f = (f, Ok name).
Proof. intros H. unfold require_group. by rewrite H. Qed.

Lemma require_group_returns (name : string) (f f' : h5file) (grp : string) :
  require_group name f = (f', Ok grp) →
  grp = name ∧ ∃ members, f' !! name = Some (Group members).
Proof.
  unfold require_group. destruct (f !! name) as [[members|d]|] eqn:Hf.
  - intros [= <- <-]. eauto.
  - intros [=].
  - intros [= <- <-]. split; [done|]. exists ∅. apply lookup_insert_eq.
Qed.

Lemma require_dataset_existing (grp name : string) (dims : list Z) (dt : dtype) (f : h5file) :
  column_ok grp name dims dt f → require_dataset grp name dims dt f = (f, Ok (grp, name)).
Proof.
  intros (members & d & Hf & Hm & Hshape & Hcast). unfold require_dataset.
  rewrite Hf, Hm, Hcast. by case_decide.
Qed.

Lemma require_dataset_returns (grp name : string) (dims : list Z) (dt : dtype)
    (f f' : h5file) (h : handle) :
  require_dataset grp name dims dt f = (f', Ok h) →
  h = (grp, name) ∧ column_ok grp name dims dt f' ∧
  ∀ name' dims' dt', column_ok grp name' dims' dt' f → column_ok grp name' dims' dt' f'.
Proof.
  unfold require_dataset.
  destruct (f !! grp) as [[members|?]|] eqn:Hf; [|intros [=]..].
  destruct (members !! name) as [[?|d]|] eqn:Hm; [intros [=]| |].
  - case_decide as Hshape; [|intros [=]].
    destruct (can_cast dt (ds_dtype d)) eqn:Hcast; intros [= <- <-].
    split_and!; [done | by exists members, d | done].
  - destruct (forallb _ dims); intros [= <- <-].
    split_and!; [done | |].
    + exists (<[name:=Column (new_dataset dims dt)]> members), (new_dataset dims dt).
      rewrite !lookup_insert_eq. split_and!; [done.. | by destruct dt].
    + intros name' dims' dt' (members' & d' & Hf' & Hm' & Hok).
      rewrite Hf in Hf'. injection Hf' as <-.
      exists (<[name:=Column (new_dataset dims dt)]> members), d'.
      rewrite lookup_insert_eq. split; [done|].
      rewrite lookup_insert_ne by congruence. done.
Qed.

Lemma store_column_ok (h : handle) (data : list complex) (grp name : string)
    (dims : list Z) (dt : dtype) (f : h5file) :
  column_ok grp name dims dt f → column_ok grp name dims dt (store h data f).
Proof.
  intros (members & d & Hf & Hm & Hshape & Hcast). unfold store.
  destruct (f !! h.1) as [[members'|?]|] eqn:Hf'; [|by exists members, d..].
  destruct (members' !! h.2) as [[?|d']|] eqn:Hm'; [by exists members, d| |by exists members, d].
  destruct (decide (h.1 = grp)) as [Hgrp|Hgrp].
  - rewrite Hgrp in *. rewrite Hf in Hf'. injection Hf' as <-.
    destruct (decide (h.2 = name)) as [Hname|Hname].
    + rewrite Hname in *. rewrite Hm in Hm'. injection Hm' as <-.
      exists (<[name:=Column (Dataset (ds_shape d) (ds_dtype d) data)]> members),
             (Dataset (ds_shape d) (ds_dtype d) data).
      by rewrite !lookup_insert_eq.
    + exists (<[h.2:=Column (Dataset (ds_shape d') (ds_dtype d') data)]> members), d.
      rewrite lookup_insert_eq. split; [done|].
      by rewrite lookup_insert_ne.
  - exists members, d. by rewrite lookup_insert_ne.
Qed.

Lemma create_dataset_existing (N : Z) (name : string) (s : Z) (f : h5file) :
  schema N name s f → create_dataset N name s f = (f, Ok (handles name)).
Proof.
  intros (H1 & H2 & H3 & H4 & H5 & H6 & H7 & H8).
  pose proof H1 as (members & d & Hf & _).
  unfold create_dataset, m_bind, m_ret.
  rewrite (require_group_existing name f members Hf).
  by rewrite !require_dataset_existing.
Qed.

Lemma create_dataset_returns (N : Z) (name : string) (s : Z) (f f' : h5file)
    (dataset : list (string * handle)) :
  create_dataset N name s f = (f', Ok dataset) →
  dataset = handles name ∧ schema N name s f'.
Proof.
  unfold create_dataset, m_bind, m_ret.
  destruct (require_group name f) as [f0 [grp|?]] eqn:H0; [|intros [=]].
  apply require_group_returns in H0 as [-> _].
  destruct (require_dataset name "epsilons" _ _ f0) as [f1 [h1|?]] eqn:H1; [|intros [=]].
  destruct (require_dataset name "proximities" _ _ f1) as [f2 [h2|?]] eqn:H2; [|intros [=]].
  destruct (require_dataset name "Hx" _ _ f2) as [f3 [h3|?]] eqn:H3; [|intros [=]].
  destruct (require_dataset name "Hy" _ _ f3) as [f4 [h4|?]] eqn:H4; [|intros [=]].
  destruct (require_dataset name "Ez" _ _ f4) as [f5 [h5|?]] eqn:H5; [|intros [=]].
  destruct (require_dataset name "Hx_vac" _ _ f5) as [f6 [h6|?]] eqn:H6; [|intros [=]].
  destruct (require_dataset name "Hy_vac" _ _ f6) as [f7 [h7|?]] eqn:H7; [|intros [=]].
  destruct (require_dataset name "Ez_vac" _ _ f7) as [f8 [h8|?]] eqn:H8; [|intros [=]].
  intros [= <- <-].
  apply require_dataset_returns in H1 as (-> & C1 & _).
  apply require_dataset_returns in H2 as (-> & C2 & K2).
  apply require_dataset_returns in H3 as (-> & C3 & K3).
  apply require_dataset_returns in H4 as (-> & C4 & K4).
  apply require_dataset_returns in H5 as (-> & C5 & K5).
  apply require_dataset_returns in H6 as (-> & C6 & K6).
  apply require_dataset_returns in H7 as (-> & C7 & K7).
  apply require_dataset_returns in H8 as (-> & C8 & K8).
  split; [done|]. unfold schema. split_and!; eauto 12.
Qed.

Lemma create_dataset_fresh (N : Z) (name : string) (s : Z) (f : h5file) :
  f !! name = None → 0 ≤ N → 0 ≤ s →
  ∃ f', create_dataset N name s f = (f', Ok (handles name)).
Proof.
  intros Hf HN Hs. unfold create_dataset, m_bind, m_ret, require_group. rewrite Hf.
  unfold require_dataset. simpl.
  assert ((0 <=? N) && ((0 <=? s) && ((0 <=? s) && true)) = true) as ->.
  { rewrite !andb_true_iff, !Z.leb_le. done. }
  repeat (rewrite lookup_insert_eq;
          rewrite ?lookup_insert_ne, ?lookup_empty by done; simpl).
  by eexists.
Qed.

(** C9. [create_dataset] is idempotent. After a call for a batch has
    returned, a second call with the same batch name, [N] and device size
    does not raise, returns the same eight handles (one per column name,
    none twice) and leaves the file exactly as it was, also when data has
    been stored through the handles in between. *)
Theorem create_dataset_idempotent (f f1 : h5file) (N : Z) (name : string) (s : Z)
    (dataset : list (string * handle)) :
  create_dataset N name s f = (f1, Ok dataset) →
  create_dataset N name s f1 = (f1, Ok dataset) ∧
  NoDup dataset.*1 ∧
  dataset.*2 = (λ col, (name, col)) <$> dataset.*1 ∧
  ∀ writes : list (handle * list complex),
    let f2 := foldr (λ w, store w.1 w.2) f1 writes in
    create_dataset N name s f2 = (f2, Ok dataset).
Proof.
  intros [-> Hschema]%create_dataset_returns.
  split; [by apply create_dataset_existing|].
  split; [apply (bool_decide_unpack _); by vm_compute|]. split; [done|].
  intros writes f2. apply create_dataset_existing. unfold f2.
  induction writes as [|[h data] writes IH]; simpl; [done|].
  destruct IH as (C1 & C2 & C3 & C4 & C5 & C6 & C7 & C8).
  unfold schema. split_and!; by apply store_column_ok.
Qed.

Lemma create_dataset_idempotent_witness :
  ∃ f1 dataset,
    create_dataset 2 "batch" 3 ∅ = (f1, Ok dataset) ∧
    create_dataset 2 "batch" 3 f1 = (f1, Ok dataset).
Proof.
  destruct (create_dataset_fresh 2 "batch" 3 ∅) as [f1 Hf1]; [done | lia | lia |].
  exists f1, (handles "batch"). split; [done|].
  by apply (create_dataset_idempotent ∅ f1 2 "batch" 3 (handles "batch") Hf1).
Defined.

(** ** Cavity2D.solve: the padded grid *)

Lemma cut_everything {A} (l : list A) : cut everything l = l.
Proof.
  unfold cut, slice_length, slice_start, slice_stop. simpl.
  by rewrite Nat.sub_0_r, firstn_all.
Qed.

Lemma getitem_everything {A} (a : list (list A)) : getitem everything everything a = a.
Proof.
  unfold getitem. rewrite cut_everything.
  induction a as [|row a IH]; [done|].
  rewrite fmap_cons, cut_everything. by f_equal.
Qed.

Lemma broadcast_index_lt (n k : nat) : (k < n)%nat → broadcast_index n k = k.
Proof. intros Hk. unfold broadcast_index. destruct (Nat.eqb_spec n 1); lia. Qed.

Lemma cell_setitem_block (rows cols : nat) (lo hi : Z) (b a a' : grid) (i j : nat) (x : float) :
  rect rows cols a → 0 ≤ lo ≤ hi → hi ≤ Z.of_nat rows → hi ≤ Z.of_nat cols →
  rect (Z.to_nat (hi - lo)) (Z.to_nat (hi - lo)) b →
  setitem_block (from_to lo hi) (from_to lo hi) b a = Ok a' →
  cell a i j = Some x →
  cell a' i j
  = if bool_decide (lo ≤ Z.of_nat i < hi ∧ lo ≤ Z.of_nat j < hi)
    then cell b (i - Z.to_nat lo) (j - Z.to_nat lo) else Some x.
Proof.
  intros [Hr Hc] Hlo Hrows Hcols Hb. unfold setitem_block.
  destruct (shape b) as [hb wb] eqn:Hshape. destruct (_ && _); [|done].
  intros [= <-] (row & Hrow & Hx)%cell_Some.
  unfold cell at 1. rewrite list_lookup_imap, Hrow. simpl.
  rewrite Hr, (Hc _ _ Hrow), !in_slice_from_to, !slice_start_from_to by lia.
  destruct (decide (lo ≤ Z.of_nat i < hi)) as [Hi|Hi].
  - rewrite (bool_decide_eq_true_2 _ Hi). simpl.
    rewrite list_lookup_imap, Hx. simpl. rewrite in_slice_from_to by lia.
    destruct (decide (lo ≤ Z.of_nat j < hi)) as [Hj|Hj].
    + rewrite (bool_decide_eq_true_2 _ Hj), bool_decide_eq_true_2 by done.
      assert (0 < Z.to_nat (hi - lo))%nat as Hpos by lia.
      rewrite (rect_shape _ _ b Hb Hpos) in Hshape. injection Hshape as <- <-.
      rewrite !broadcast_index_lt by lia.
      destruct (rect_cell_is_Some _ _ b (i - Z.to_nat lo) (j - Z.to_nat lo) Hb)
        as [y Hy]; [lia.. |]. by rewrite Hy.
    + by rewrite (bool_decide_eq_false_2 _ Hj), bool_decide_eq_false_2 by tauto.
  - rewrite (bool_decide_eq_false_2 _ Hi), bool_decide_eq_false_2 by tauto. done.
Qed.

Lemma perm_rectangle_fills_inside_witness :
  let block := setitem_scalar (from_to 32 (add64 32 5)) (from_to 32 (add64 32 5))
                              (eps_si sample_constants) (replicate 64 (replicate 64 1%float)) in
  Ok block ∈ perm_rectangle sample_constants 64 ∧
  ∃ x0 y0 dx dy,
    (16 ≤ x0 < 64 - 16 ∧ 16 ≤ y0 < 64 - 16) ∧ (5 ≤ dx < 16 ∧ 5 ≤ dy < 16) ∧
    ∀ i j : nat, Z.of_nat i < 64 → Z.of_nat j < 64 →
      cell block i j
      = Some (if bool_decide (x0 ≤ Z.of_nat i < x0 + dx ∧ y0 ≤ Z.of_nat j < y0 + dy)
              then eps_si sample_constants else 1%float).
Proof.
  intros block.
  assert (Ok block ∈ perm_rectangle sample_constants 64) as Hin.
  { unfold perm_rectangle, rand_lift. rewrite np_ones_ok by lia.
    apply elem_of_rand_bind. left. eexists. split; [by apply list_elem_of_singleton|].
    apply elem_of_rand_bind. left. exists (32, 32).
    split; [apply elem_of_randint2; left; exists 32, 32; split; [done | lia]|].
    apply elem_of_rand_bind. left. exists (5, 5).
    split; [apply elem_of_randint2; left; exists 5, 5; split; [done | lia]|].
    by apply list_elem_of_singleton. }
  split; [done|].
  apply (perm_rectangle_fills_inside sample_constants 64 block ltac:(lia) ltac:(pow2; lia) Hin).
Defined.

Lemma init_default_raises_witness :
  SimulationData.init [] 1%float None "Ez" 3 16 1 0.05%float 1e-6%float
  = [Raise (ValueError "high <= 0")]
  ∧ SimulationData.init [] 1%float None "Ez" 0 16 3 0.05%float 1e-6%float
    = [Raise (ValueError "high <= 0"); Raise (ValueError "high <= 0")].
Proof.
  assert (1 ≤ 1 ∨ 3 ≤ 0) as Hrow by (left; lia).
  assert (3 ≤ 1 ∨ 0 ≤ 0) as Hcol by (right; lia).
  split.
  - exact (init_default_raises [] 1%float "Ez" 3 16 1 0.05%float 1e-6%float Hrow).
  - exact (init_default_raises [] 1%float "Ez" 0 16 3 0.05%float 1e-6%float Hcol).
Defined.

(** ** SimulationData.solve *)

Lemma map2d_const {A B} (c : B) (rows cols : nat) (a : list (list A)) :
  rect rows cols a → map2d (λ _, c) a = replicate rows (replicate cols c).
Proof.
  intros [Hr Hc]. unfold map2d. apply list_eq_same_length with rows;
    [by rewrite length_replicate | by rewrite length_fmap |].
  intros i x y Hi. rewrite list_lookup_fmap.
  intros Hx [-> _]%lookup_replicate.
  destruct (a !! i) as [row|] eqn:Hrow; simpl in Hx; [|done].
  injection Hx as <-. apply list_eq_same_length with cols;
    [by rewrite length_replicate | rewrite length_fmap; eauto |].
  intros j x y Hj. rewrite list_lookup_fmap.
  intros Hx [-> _]%lookup_replicate.
  destruct (row !! j); simpl in Hx; congruence.
Qed.

Lemma py_index_nonneg (len : nat) (i : Z) :
  0 ≤ i < Z.of_nat len → py_index len i = Some (Z.to_nat i).
Proof.
  intros H. unfold py_index.
  destruct (Z.leb_spec 0 i), (Z.ltb_spec i (Z.of_nat len)); simpl; done || lia.
Qed.

Lemma cell_setitem_cell {A} (n : nat) (a a' : list (list A)) (i j : Z) (v : A) (i' j' : nat) :
  rect n n a → 0 ≤ i < Z.of_nat n → 0 ≤ j < Z.of_nat n →
  setitem_cell i j v a = Ok a' → (i' < n)%nat → (j' < n)%nat →
  cell a' i' j'
  = if bool_decide (Z.of_nat i' = i ∧ Z.of_nat j' = j) then Some v else cell a i' j'.
Proof.
  intros Hrect Hi Hj. unfold setitem_cell.
  assert (0 < n)%nat as Hpos by lia.
  rewrite (rect_shape n n a Hrect Hpos). simpl. destruct Hrect as [Hr Hc]. rewrite Hr.
  rewrite !py_index_nonneg by done. intros [= <-] Hi' Hj'.
  destruct (lookup_lt_is_Some_2 a i') as [row Hrow]; [lia|].
  unfold cell. rewrite list_lookup_imap, Hrow. simpl.
  destruct (Nat.eqb_spec i' (Z.to_nat i)) as [->|Hne].
  - destruct (decide (j' = Z.to_nat j)) as [->|Hnej].
    + rewrite list_lookup_insert_eq by (rewrite (Hc _ _ Hrow); lia).
      by rewrite bool_decide_eq_true_2 by lia.
    + rewrite list_lookup_insert_ne by done.
      by rewrite bool_decide_eq_false_2 by lia.
  - by rewrite bool_decide_eq_false_2 by lia.
Qed.

(** X4. [SimulationData.solve] assigns nothing but [fields] and
    [fields_vac], and only as its last step: the configuration, the source
    position and [proximities] are never changed, a call that raises leaves
    the whole object as it was, and a call that returns has set both. *)
Theorem simulation_solve_frame (B : Backend) (self : SimulationData.t) :
  let out := SimulationData.solve B self in
  (SimulationData.epsilons out.1 = SimulationData.epsilons self ∧
   SimulationData.omega out.1 = SimulationData.omega self ∧
   SimulationData.mode out.1 = SimulationData.mode self ∧
   SimulationData.grid_size out.1 = SimulationData.grid_size self ∧
   SimulationData.npml out.1 = SimulationData.npml self ∧
   SimulationData.npml_buffer out.1 = SimulationData.npml_buffer self ∧
   SimulationData.total_grid_size out.1 = SimulationData.total_grid_size self ∧
   SimulationData.dl out.1 = SimulationData.dl self ∧
   SimulationData.L0 out.1 = SimulationData.L0 self ∧
   SimulationData.source_pos out.1 = SimulationData.source_pos self ∧
   SimulationData.proximities out.1 = SimulationData.proximities self) ∧
  (raised out.2 → out.1 = self) ∧
  (returned out.2 →
   is_Some (SimulationData.fields out.1) ∧ is_Some (SimulationData.fields_vac out.1)).
Proof.
  unfold SimulationData.solve, m_bind, m_self, m_lift, m_assign. simpl.
  repeat (case_match; simpl; try done);
    (split_and!; [done.. | by intros [? [=]] || done | by intros [? [=]] || eauto]).
Qed.

(** The run of [solve] on a well-formed object, step by step. *)
Lemma solve_runs (B : Backend) (self : SimulationData.t) :
  let '(start, end_) := SimulationData.window self in
  let total := SimulationData.total_grid_size self in
  let '(sx, sy) := SimulationData.source_pos self in
  let gs := SimulationData.grid_size self in
  let clip {A} := getitem (A := A) (from_to start end_) (from_to start end_) in
  total = gs + 2 * SimulationData.npml self + 2 * SimulationData.npml_buffer self →
  0 < gs → 0 ≤ SimulationData.npml self → 0 ≤ SimulationData.npml_buffer self →
  total < 2 ^ 62 →
  rect (Z.to_nat gs) (Z.to_nat gs) (SimulationData.epsilons self) →
  0 ≤ sx + start < total → 0 ≤ sy + start < total →
  (∀ perms, check_inputs B (SimulationData.omega self) perms (SimulationData.dl self)
              [SimulationData.npml self; SimulationData.npml self]
              (SimulationData.mode self) (SimulationData.L0 self) = None) →
  (∀ sim, returned (solve_fields B sim)) →
  ∃ vac_sim sim Hx_vac Hy_vac Ez_vac Hx Hy Ez,
    solve_fields B vac_sim = Ok (Hx_vac, Hy_vac, Ez_vac) ∧
    solve_fields B sim = Ok (Hx, Hy, Ez) ∧
    SimulationData.solve B self
    = (SimulationData.set_fields
         (SimulationData.Fields (clip Hx) (clip Hy) (clip Ez))
         (SimulationData.Fields (clip Hx_vac) (clip Hy_vac) (clip Ez_vac)) self,
       Ok tt) ∧
    sim_src sim = sim_src vac_sim ∧
    (∀ i j : nat, Z.of_nat i < total → Z.of_nat j < total →
       cell (sim_src sim) i j
       = Some (if bool_decide (Z.of_nat i = sx + start ∧ Z.of_nat j = sy + start)
               then c_one else c_zero) ∧
       cell (sim_eps_r vac_sim) i j = Some 1%float ∧
       cell (sim_eps_r sim) i j
       = if bool_decide (start ≤ Z.of_nat i < end_ ∧ start ≤ Z.of_nat j < end_)
         then cell (SimulationData.epsilons self) (i - Z.to_nat start) (j - Z.to_nat start)
         else Some 1%float).
Proof.
  destruct self as [eps om md gs np nb total dl0 L00 [sx sy] fs fv px].
  unfold SimulationData.window. simpl.
  set (start := np + nb). set (end_ := start + gs).
  intros Htotal Hgs Hnp Hnb Hbig Heps Hsx Hsy Hcheck Hsolve.
  unfold SimulationData.solve, SimulationData.window, SimulationData.shifted_source,
    m_bind, m_self, m_lift, m_assign. simpl. fold start end_.
  set (n := Z.to_nat total).
  rewrite np_ones_ok by lia. fold n.
  pose proof (rect_replicate n n 1%float) as R0.
  assert (0 ≤ start ≤ end_ ∧ end_ ≤ Z.of_nat n) as [Hs He]
    by (unfold n, start, end_ in *; lia).
  assert (Z.to_nat (end_ - start) = Z.to_nat gs) as Hlen by (unfold end_; f_equal; lia).
  destruct (setitem_block_ok n n start end_ eps (replicate n (replicate n 1%float)))
    as [perms Hperms]; [done | lia.. | |].
  { rewrite Hlen. apply rect_shape; [done | lia]. }
  rewrite Hperms. pose proof (rect_setitem_block _ _ _ _ _ _ _ R0 Hperms) as R1.
  unfold add64. pose proof wrap64_small as Hwrap. pow2.
  rewrite !Hwrap by lia.
  unfold new_Simulation. rewrite !Hcheck. unfold set_src. simpl.
  destruct (setitem_cell_ok n (map2d (λ _, c_zero) (replicate n (replicate n 1%float)))
              (sx + start) (sy + start) c_one) as [src0 Hsrc0];
    [by apply rect_map2d | lia.. |].
  destruct (setitem_cell_ok n (map2d (λ _, c_zero) perms)
              (sx + start) (sy + start) c_one) as [src1 Hsrc1];
    [by apply rect_map2d | lia.. |].
  rewrite Hsrc0. simpl.
  match goal with |- context [solve_fields B ?s] =>
    destruct (Hsolve s) as [[[Hxv Hyv] Ezv] HFv]; set (vac_sim := s) in * end.
  rewrite HFv. simpl. rewrite Hsrc1. simpl.
  match goal with |- context [solve_fields B (Sim ?a ?b ?c ?d ?e ?f src1 ?g)] =>
    destruct (Hsolve (Sim a b c d e f src1 g)) as [[[Hx1 Hy1] Ez1] HF];
    set (sim := Sim a b c d e f src1 g) in * end.
  rewrite HF. simpl.
  exists vac_sim, sim, Hxv, Hyv, Ezv, Hx1, Hy1, Ez1.
  assert (∀ g : grid, rect n n g →
            map2d (λ _, c_zero) g = replicate n (replicate n c_zero)) as Hzeros.
  { intros g Rg. apply map2d_const. done. }
  rewrite (Hzeros _ R0) in Hsrc0. rewrite (Hzeros _ R1) in Hsrc1.
  assert (src1 = src0) as -> by congruence.
  assert (0 ≤ sx + start < Z.of_nat n ∧ 0 ≤ sy + start < Z.of_nat n) as [Hsxn Hsyn]
    by (unfold n; lia).
  split_and!; [done.. |].
  intros i j Hi Hj. assert (i < n ∧ j < n)%nat as [Hin Hjn] by (unfold n; lia).
  split_and!.
  - simpl.
    rewrite (cell_setitem_cell n _ _ _ _ _ i j (rect_replicate n n c_zero)
               Hsxn Hsyn Hsrc0 Hin Hjn).
    rewrite cell_replicate by done. by case_bool_decide.
  - simpl. by apply cell_replicate.
  - simpl.
    apply (cell_setitem_block n n start end_ eps _ perms i j 1%float R0);
      [lia.. | by rewrite Hlen | done | by apply cell_replicate].
Qed.

(** X5. What one call of [SimulationData.solve] runs. For a device block of
    the configured size and a source inside the padded grid (and a solver
    that accepts the configuration and returns), it solves two simulations
    with the same single source cell, amplitude 1 at row [source_pos[0] +
    start] and column [source_pos[1] + start]: one over vacuum (1.0 in
    every cell) and one over the device block embedded in the window with
    1.0 around it. It stores both results clipped to the window. *)
Theorem simulation_solve_sequence (B : Backend) (self : SimulationData.t) :
  let '(start, end_) := SimulationData.window self in
  let total := SimulationData.total_grid_size self in
  let '(sx, sy) := SimulationData.source_pos self in
  let gs := SimulationData.grid_size self in
  let clip {A} := getitem (A := A) (from_to start end_) (from_to start end_) in
  total = gs + 2 * SimulationData.npml self + 2 * SimulationData.npml_buffer self →
  0 < gs → 0 ≤ SimulationData.npml self → 0 ≤ SimulationData.npml_buffer self →
  total < 2 ^ 62 →
  rect (Z.to_nat gs) (Z.to_nat gs) (SimulationData.epsilons self) →
  0 ≤ sx + start < total → 0 ≤ sy + start < total →
  (∀ perms, check_inputs B (SimulationData.omega self) perms (SimulationData.dl self)
              [SimulationData.npml self; SimulationData.npml self]
              (SimulationData.mode self) (SimulationData.L0 self) = None) →
  (∀ sim, returned (solve_fields B sim)) →
  ∃ vac_sim sim Hx_vac Hy_vac Ez_vac Hx Hy Ez,
    solve_fields B vac_sim = Ok (Hx_vac, Hy_vac, Ez_vac) ∧
    solve_fields B sim = Ok (Hx, Hy, Ez) ∧
    SimulationData.solve B self
    = (SimulationData.set_fields
         (SimulationData.Fields (clip Hx) (clip Hy) (clip Ez))
         (SimulationData.Fields (clip Hx_vac) (clip Hy_vac) (clip Ez_vac)) self,
       Ok tt) ∧
    sim_src sim = sim_src vac_sim ∧
    (∀ i j : nat, Z.of_nat i < total → Z.of_nat j < total →
       cell (sim_src sim) i j
       = Some (if bool_decide (Z.of_nat i = sx + start ∧ Z.of_nat j = sy + start)
               then c_one else c_zero) ∧
       cell (sim_eps_r vac_sim) i j = Some 1%float ∧
       cell (sim_eps_r sim) i j
       = if bool_decide (start ≤ Z.of_nat i < end_ ∧ start ≤ Z.of_nat j < end_)
         then cell (SimulationData.epsilons self) (i - Z.to_nat start) (j - Z.to_nat start)
         else Some 1%float).
Proof. apply solve_runs. Qed.


Lemma simulation_solve_sequence_witness :
  let self := SimulationData.Make [[5; 6]; [7; 8]]%float 1%float "Ez" 2 0 1 4
                                  0.05%float 1e-6%float (0, 0) None None None in
  ∃ vac_sim sim : Simulation (Op stub),
    (SimulationData.solve stub self).2 = Ok tt ∧
    cell (sim_src sim) 1 1 = Some c_one ∧
    cell (sim_eps_r vac_sim) 1 1 = Some 1%float ∧
    cell (sim_eps_r sim) 1 2 = Some 6%float.
Proof.
  intros self.
  assert (rect 2 2 [[5; 6]; [7; 8]]%float) as Hrect.
  { split; [done|]. intros [|[|i]] row; simpl; by intros [= <-]. }
  assert (4 < 2 ^ 62) as Hbig by (pow2; lia).
  destruct (simulation_solve_sequence stub self eq_refl ltac:(simpl; lia) ltac:(simpl; lia)
              ltac:(simpl; lia) Hbig Hrect ltac:(simpl; lia) ltac:(simpl; lia)
              ltac:(done) ltac:(intros sim; by eexists))
    as (vac_sim & sim & ? & ? & ? & ? & ? & ? & _ & _ & Hsolve & _ & Hcells).
  exists vac_sim, sim. rewrite Hsolve. split; [done|].
  destruct (Hcells 1%nat 1%nat ltac:(simpl; lia) ltac:(simpl; lia)) as (Hsrc & Hvac & _).
  destruct (Hcells 1%nat 2%nat ltac:(simpl; lia) ltac:(simpl; lia)) as (_ & _ & Heps).
  split_and!; [by rewrite Hsrc | done | by rewrite Heps].
Defined.

Lemma init_default_outcome (eps : grid) (om : float) (md : string) (gs np nb : Z)
    (dl0 L00 : float) (self : SimulationData.t) :
  1 < nb → 0 < gs →
  Ok self ∈ SimulationData.init eps om None md gs np nb dl0 L00 →
  ∃ x y, 0 ≤ x < nb - 1 ∧ 0 ≤ y < gs ∧
         self = SimulationData.Make eps om md gs np nb (gs + 2 * np + 2 * nb) dl0 L00
                                    (x, y) None None None.
Proof.
  intros Hnb Hgs. rewrite init_default by done.
  intros (x & (y & Hself & Hy)%list_elem_of_bind & Hx)%list_elem_of_bind.
  apply list_elem_of_singleton in Hself as [= ->].
  apply elem_of_seqZ in Hx, Hy. exists x, y. split_and!; [lia.. | done].
Qed.

(** X6. Constructing [SimulationData] without a source position and then
    calling [solve] always works on the source: whichever position is drawn,
    it indexes a cell of the padded grid, at a row in
    [start, start + npml_buffer - 1) and a column in [start, end), so the
    call returns (given a block of the configured size and a solver that
    accepts the configuration and returns) and the fields are set. *)
Theorem default_construction_solves (B : Backend) (eps : grid) (om : float) (md : string)
    (gs np nb : Z) (dl0 L00 : float) (self : SimulationData.t) :
  2 ≤ nb → 1 ≤ gs → 0 ≤ np → gs + 2 * np + 2 * nb < 2 ^ 62 →
  rect (Z.to_nat gs) (Z.to_nat gs) eps →
  (∀ perms, check_inputs B om perms dl0 [np; np] md L00 = None) →
  (∀ sim, returned (solve_fields B sim)) →
  Ok self ∈ SimulationData.init eps om None md gs np nb dl0 L00 →
  let '(start, end_) := SimulationData.window self in
  let '(row, col) := SimulationData.shifted_source self start in
  start ≤ row < start + nb - 1 ∧ start ≤ col < end_ ∧
  (SimulationData.solve B self).2 = Ok tt ∧
  is_Some (SimulationData.fields (SimulationData.solve B self).1) ∧
  is_Some (SimulationData.fields_vac (SimulationData.solve B self).1).
Proof.
  intros Hnb Hgs Hnp Hbig Heps Hcheck Hsolve Hin.
  apply init_default_outcome in Hin as (x & y & Hx & Hy & ->); [|lia..].
  pose proof (solve_runs B
    (SimulationData.Make eps om md gs np nb (gs + 2 * np + 2 * nb) dl0 L00 (x, y)
                         None None None)) as Hruns.
  unfold SimulationData.window, SimulationData.shifted_source in *. simpl in *.
  unfold add64. pose proof wrap64_small as Hwrap. pow2. rewrite !Hwrap by lia.
  destruct Hruns as (? & ? & ? & ? & ? & ? & ? & ? & _ & _ & -> & _); [done || lia.. |].
  simpl. split_and!; eauto; lia.
Qed.

Lemma default_construction_solves_witness :
  Forall (λ r, ∃ self, r = Ok self ∧ (SimulationData.solve stub self).2 = Ok tt)
         (SimulationData.init [[5; 6]; [7; 8]]%float 1%float None "Ez" 2 0 3
                              0.05%float 1e-6%float).
Proof.
  assert (rect 2 2 [[5; 6]; [7; 8]]%float) as Hrect.
  { split; [done|]. intros [|[|i]] row; simpl; by intros [= <-]. }
  assert (2 + 2 * 0 + 2 * 3 < 2 ^ 62) as Hbig by (pow2; lia).
  assert (2 ≤ 3 ∧ 1 ≤ 2 ∧ 0 ≤ 0) as (H1 & H2 & H3) by lia.
  apply Forall_forall. intros r Hr.
  assert (∃ self, r = Ok self) as [self ->].
  { rewrite init_default in Hr by lia.
    apply list_elem_of_bind in Hr as (x & (y & Hself & _)%list_elem_of_bind & _).
    apply list_elem_of_singleton in Hself. eauto. }
  exists self. split; [done|].
  pose proof (default_construction_solves stub [[5; 6]; [7; 8]]%float 1%float "Ez" 2 0 3
                0.05%float 1e-6%float self H1 H2 H3 Hbig Hrect
                ltac:(done) ltac:(intros sim; by eexists) Hr) as Hthm.
  destruct (SimulationData.window self) as [start end_].
  destruct (SimulationData.shifted_source self start) as [row col].
  by destruct Hthm as (_ & _ & Hok & _).
Defined.

(** ** load_batch *)

Lemma load_batch_schema (N : Z) (name : string) (s : Z) (f : h5file) :
  schema N name s f → load_batch f name = Loaded (handles name).
Proof.
  intros ((m & d1 & Hf & H1 & _) & (m2 & d2 & Hf2 & H2 & _) & (m3 & d3 & Hf3 & H3 & _)
          & (m4 & d4 & Hf4 & H4 & _) & (m5 & d5 & Hf5 & H5 & _) & (m6 & d6 & Hf6 & H6 & _)
          & (m7 & d7 & Hf7 & H7 & _) & (m8 & d8 & Hf8 & H8 & _)).
  rewrite Hf in Hf2, Hf3, Hf4, Hf5, Hf6, Hf7, Hf8.
  injection Hf2 as <-. injection Hf3 as <-. injection Hf4 as <-. injection Hf5 as <-.
  injection Hf6 as <-. injection Hf7 as <-. injection Hf8 as <-.
  unfold load_batch, getitem_member. rewrite Hf. simpl.
  by rewrite H1, H2, H3, H4, H5, H6, H7, H8.
Qed.

Lemma schema_stores (N : Z) (name : string) (s : Z) (f : h5file)
    (writes : list (handle * list complex)) :
  schema N name s f → schema N name s (foldr (λ w, store w.1 w.2) f writes).
Proof.
  intros Hschema. induction writes as [|[h data] writes IH]; simpl; [done|].
  destruct IH as (C1 & C2 & C3 & C4 & C5 & C6 & C7 & C8).
  unfold schema. split_and!; by apply store_column_ok.
Qed.

(** X7. [create_dataset] and [load_batch] round trip: once
    [create_dataset] has returned for a batch, [load_batch] of that batch
    name gives the same eight handles, also after data has been stored
    through them. A batch name that is not in the file is a [KeyError]
    for that name, and a batch that lacks one of the eight columns is a
    [KeyError] for that column. *)
Theorem create_then_load (f f1 : h5file) (N : Z) (name : string) (s : Z)
    (dataset : list (string * handle)) :
  create_dataset N name s f = (f1, Ok dataset) →
  (∀ writes : list (handle * list complex),
     load_batch (foldr (λ w, store w.1 w.2) f1 writes) name = Loaded dataset) ∧
  (∀ other, f1 !! other = None → load_batch f1 other = KeyError other) ∧
  (∃ members, f1 !! name = Some (Group members) ∧
     ∀ col, col ∈ dataset.*1 →
       load_batch (<[name := Group (delete col members)]> f1) name = KeyError col).
Proof.
  intros [-> Hschema]%create_dataset_returns. split_and!.
  - intros writes. apply (load_batch_schema N _ s). by apply schema_stores.
  - intros other Hother. unfold load_batch. by rewrite Hother.
  - destruct Hschema as
      ((m & d1 & Hf & H1 & _) & (m2 & d2 & Hf2 & H2 & _) & (m3 & d3 & Hf3 & H3 & _)
       & (m4 & d4 & Hf4 & H4 & _) & (m5 & d5 & Hf5 & H5 & _) & (m6 & d6 & Hf6 & H6 & _)
       & (m7 & d7 & Hf7 & H7 & _) & (m8 & d8 & Hf8 & H8 & _)).
    rewrite Hf in Hf2, Hf3, Hf4, Hf5, Hf6, Hf7, Hf8.
    injection Hf2 as <-. injection Hf3 as <-. injection Hf4 as <-. injection Hf5 as <-.
    injection Hf6 as <-. injection Hf7 as <-. injection Hf8 as <-.
    exists m. split; [done|]. intros col Hcol.
    unfold load_batch, getitem_member. rewrite lookup_insert_eq.
    simpl in Hcol.
    repeat (apply elem_of_cons in Hcol as [->|Hcol]);
      [| | | | | | | | by apply elem_of_nil in Hcol];
      rewrite ?lookup_delete_eq; try done;
      repeat (rewrite lookup_delete_ne by done;
              rewrite ?H1, ?H2, ?H3, ?H4, ?H5, ?H6, ?H7, ?H8; simpl;
              rewrite ?lookup_delete_eq; try done).
Qed.

Lemma create_then_load_witness :
  ∃ f1 members,
    create_dataset 2 "batch" 3 ∅ = (f1, Ok (handles "batch")) ∧
    load_batch (store ("batch", "Ez") [c_one] f1) "batch" = Loaded (handles "batch") ∧
    load_batch f1 "other" = KeyError "other" ∧
    f1 !! "batch" = Some (Group members) ∧
    load_batch (<["batch" := Group (delete "Hy" members)]> f1) "batch" = KeyError "Hy".
Proof.
  assert (Hf1 : create_dataset 2 "batch" 3 ∅
                = ((create_dataset 2 "batch" 3 ∅).1, Ok (handles "batch"))).
  { destruct (create_dataset_fresh 2 "batch" 3 ∅) as [f1 Hf1]; [done | lia | lia |].
    by rewrite Hf1. }
  destruct (create_then_load ∅ _ 2 "batch" 3 (handles "batch") Hf1)
    as (Hload & Hmissing & members & Hmembers & Hcol).
  exists (create_dataset 2 "batch" 3 ∅).1, members. split_and!; [done | | | done |].
  - apply (Hload [(("batch", "Ez"), [c_one])]).
  - apply Hmissing. vm_compute. reflexivity.
  - apply Hcol. simpl. repeat constructor.
Defined.

(** ** The generators and the size of the grid *)

Lemma perm_rectangle_returns (K : constants) (s : Z) (r : result grid) :
  33 ≤ s → r ∈ perm_rectangle K s → returned r.
Proof.
  intros Hs. unfold perm_rectangle, rand_lift. rewrite np_ones_ok by lia.
  intros [(ones & Hones & Hr) | (e & He & _)]%elem_of_rand_bind;
    [|by apply list_elem_of_singleton in He].
  apply elem_of_rand_bind in Hr as [([x0 y0] & Hc & Hr) | (e & He & _)];
    [|apply elem_of_randint2 in He as [(? & ? & [=] & _) | [? _]]; lia].
  apply elem_of_rand_bind in Hr as [([dx dy] & Hc' & Hr) | (e & He & _)];
    [|apply elem_of_randint2 in He as [(? & ? & [=] & _) | [? _]]; lia].
  apply list_elem_of_singleton in Hr as ->. by eexists.
Qed.

Lemma generator_draw_fails {A} (s : Z) (ones : result grid) (k : grid → Z * Z → rand A) :
  s ≤ 32 → ones = np_ones s s →
  rand_bind (rand_lift ones) (λ p_matrix, rand_bind (randint2 16 (s - 16)) (k p_matrix))
  = [Raise (ValueError (if s <? 0 then "negative dimensions are not allowed"
                        else "low >= high"))].
Proof.
  intros Hs ->. unfold np_ones, rand_lift.
  destruct (s <? 0) eqn:Hneg; simpl; [done|].
  unfold randint2, randint. destruct (16 <? s - 16) eqn:Hlow; [lia|]. done.
Qed.

(** X8. The generators need a grid of more than 32 cells a side. For
    [s <= 32] the one outcome of [perm_rectangle] and of [perm_ellipse] is a
    [ValueError]: that of [np.ones] for a negative [s], and otherwise that
    of [np.random.randint(16, s - 16, 2)], whose range is empty. For
    [s > 32] no outcome of either raises. *)
Theorem generators_need_room (K : constants) (s : Z) :
  (s ≤ 32 →
   let e := ValueError (if s <? 0 then "negative dimensions are not allowed"
                        else "low >= high") in
   perm_rectangle K s = [Raise e] ∧ perm_ellipse K s = [Raise e]) ∧
  (32 < s →
   ∀ r, r ∈ perm_rectangle K s ∨ r ∈ perm_ellipse K s → returned r).
Proof.
  split.
  - intros Hs. split.
    + by apply (generator_draw_fails s _ (λ p_matrix '(x0, y0), _)).
    + by apply (generator_draw_fails s _ (λ p_matrix '(x0, y0), _)).
  - intros Hs r [Hr | Hr].
    + apply (perm_rectangle_returns K s); [lia | done].
    + apply perm_ellipse_outcome in Hr as (? & ? & ? & ? & _ & _ & ->); [|lia].
      by eexists.
Qed.

(** ** The source cell and the centre of the proximity matrix *)

Lemma proximity_squared_cells (self : SimulationData.t) :
  let '(start, end_) := SimulationData.window self in
  let total := SimulationData.total_grid_size self in
  let '(sx, sy) := SimulationData.source_pos self in
  let gs := SimulationData.grid_size self in
  total = gs + 2 * SimulationData.npml self + 2 * SimulationData.npml_buffer self →
  0 < gs → 0 ≤ SimulationData.npml self → 0 ≤ SimulationData.npml_buffer self →
  total ≤ 2 ^ 30 → - 2 ^ 30 ≤ sx ≤ 2 ^ 30 → - 2 ^ 30 ≤ sy ≤ 2 ^ 30 →
  ∃ squared,
    SimulationData.get_proximity_matrix self "squared" = Ok (Some squared) ∧
    ∀ x y : nat, Z.of_nat x < gs → Z.of_nat y < gs →
      cell squared y x
      = Some (float_of_int64 ((Z.of_nat x - sx) ^ 2 + (Z.of_nat y - sy) ^ 2)).
Proof.
  destruct self as [eps om md gs np nb total dl0 L00 [sx sy] fs fv px].
  unfold SimulationData.window. simpl.
  set (start := np + nb).
  intros Htotal Hgs Hnp Hnb Hbig Hsx Hsy.
  eexists. split; [apply proximity_squared; simpl; lia|].
  unfold SimulationData.window, SimulationData.shifted_source. simpl. fold start.
  intros x y Hx Hy.
  rewrite (cell_getitem (Z.to_nat total) (Z.to_nat total));
    [| apply rect_map2d, rect_table | unfold start in *; lia..].
  rewrite cell_map2d, cell_table by (unfold start in *; lia). simpl.
  replace (Z.of_nat (Z.to_nat start + x)) with (start + Z.of_nat x)
    by (unfold start; lia).
  replace (Z.of_nat (Z.to_nat start + y)) with (start + Z.of_nat y)
    by (unfold start; lia).
  destruct (d2_window sx sy start (Z.of_nat x) (Z.of_nat y)) as [-> _];
    [unfold start in *; pow2; lia..|]. done.
Qed.

(** X9. [solve] and [get_proximity_matrix] read [source_pos] in opposite
    orders. For a source [(sx, sy)] inside the device, [solve] sets the
    source at row [sx + start], column [sy + start] of the padded grid, that
    is at cell [[sx][sy]] of the device window, while the squared-distance
    matrix is 0 at cell [[sy][sx]] and is [2 * (sx - sy) ** 2] at the cell
    of the source. *)
Theorem proximity_centre_is_transposed (B : Backend) (self : SimulationData.t) :
  let '(start, end_) := SimulationData.window self in
  let total := SimulationData.total_grid_size self in
  let '(sx, sy) := SimulationData.source_pos self in
  let gs := SimulationData.grid_size self in
  let clip {A} := getitem (A := A) (from_to start end_) (from_to start end_) in
  total = gs + 2 * SimulationData.npml self + 2 * SimulationData.npml_buffer self →
  0 ≤ SimulationData.npml self → 0 ≤ SimulationData.npml_buffer self →
  total ≤ 2 ^ 30 →
  rect (Z.to_nat gs) (Z.to_nat gs) (SimulationData.epsilons self) →
  0 ≤ sx < gs → 0 ≤ sy < gs →
  (∀ perms, check_inputs B (SimulationData.omega self) perms (SimulationData.dl self)
              [SimulationData.npml self; SimulationData.npml self]
              (SimulationData.mode self) (SimulationData.L0 self) = None) →
  (∀ sim, returned (solve_fields B sim)) →
  ∃ sim Hx Hy Ez squared,
    solve_fields B sim = Ok (Hx, Hy, Ez) ∧
    SimulationData.fields (SimulationData.solve B self).1
    = Some (SimulationData.Fields (clip Hx) (clip Hy) (clip Ez)) ∧
    cell (sim_src sim) (Z.to_nat (start + sx)) (Z.to_nat (start + sy)) = Some c_one ∧
    SimulationData.get_proximity_matrix self "squared" = Ok (Some squared) ∧
    cell squared (Z.to_nat sy) (Z.to_nat sx) = Some 0%float ∧
    cell squared (Z.to_nat sx) (Z.to_nat sy)
    = Some (float_of_int64 (2 * (sx - sy) ^ 2)).
Proof.
  pose proof (solve_runs B self) as Hruns.
  pose proof (proximity_squared_cells self) as Hprox.
  destruct self as [eps om md gs np nb total dl0 L00 [sx sy] fs fv px].
  unfold SimulationData.window in *. simpl in *.
  set (start := np + nb) in *. set (end_ := start + gs) in *.
  intros Htotal Hnp Hnb Hbig Heps Hsx Hsy Hcheck Hsolve.
  destruct Hruns as (vac_sim & sim & Hxv & Hyv & Ezv & Hx & Hy & Ez
                     & _ & HF & Hsolved & _ & Hcells);
    [done | lia | done | done | pow2; lia | done | unfold start; lia..| done | done |].
  destruct Hprox as (squared & Hsquared & Hsq);
    [done | lia | done | done | done | pow2; lia | pow2; lia |].
  exists sim, Hx, Hy, Ez, squared. split_and!; [done | by rewrite Hsolved | | done | |].
  - destruct (Hcells (Z.to_nat (start + sx)) (Z.to_nat (start + sy)))
      as (-> & _ & _); [unfold start; lia..|].
    rewrite bool_decide_eq_true_2; [done | unfold start; lia].
  - rewrite Hsq by lia. rewrite !Z2Nat.id by lia.
    by replace ((sx - sx) ^ 2 + (sy - sy) ^ 2) with 0 by lia.
  - rewrite Hsq by lia. rewrite !Z2Nat.id by lia.
    do 2 f_equal. lia.
Qed.

Lemma proximity_centre_is_transposed_witness :
  let self := SimulationData.Make [[5; 6]; [7; 8]]%float 1%float "Ez" 2 0 1 4
                                  0.05%float 1e-6%float (0, 1) None None None in
  ∃ (sim : Simulation (Op stub)) squared,
    cell (sim_src sim) 1 2 = Some c_one ∧
    SimulationData.get_proximity_matrix self "squared" = Ok (Some squared) ∧
    cell squared 1 0 = Some 0%float ∧
    cell squared 0 1 = Some 2%float.
Proof.
  intros self.
  assert (rect 2 2 [[5; 6]; [7; 8]]%float) as Hrect.
  { split; [done|]. intros [|[|i]] row; simpl; by intros [= <-]. }
  assert (4 ≤ 2 ^ 30) as Hbig by (pow2; lia).
  assert (0 ≤ 0 ∧ 0 ≤ 1 ∧ 0 ≤ 0 < 2 ∧ 0 ≤ 1 < 2) as (H1 & H2 & H3 & H4) by lia.
  destruct (proximity_centre_is_transposed stub self eq_refl H1 H2 Hbig Hrect H3 H4
              ltac:(done) ltac:(intros sim; by eexists))
    as (sim & ? & ? & ? & squared & _ & _ & Hsrc & Hsquared & Hpeak & Hsource).
  exists sim, squared. split_and!; done.
Defined.

(** ** What the two [solve] methods reject *)

Lemma setitem_block_mismatch rows cols (lo hi : Z) (b a : grid) :
  rect rows cols a → (0 < rows)%nat →
  0 ≤ lo ≤ hi → hi ≤ Z.of_nat rows → hi ≤ Z.of_nat cols →
  ((shape b).1 ≠ Z.to_nat (hi - lo) ∧ (shape b).1 ≠ 1%nat)
  ∨ ((shape b).2 ≠ Z.to_nat (hi - lo) ∧ (shape b).2 ≠ 1%nat) →
  raised (setitem_block (from_to lo hi) (from_to lo hi) b a) ∧
  ∀ e, setitem_block (from_to lo hi) (from_to lo hi) b a = Raise e → ∃ msg, e = ValueError msg.
Proof.
  intros Hrect Hpos Hlo Hrows Hcols Hb. unfold setitem_block.
  destruct (shape b) as [hb wb]. simpl in Hb.
  rewrite (rect_shape rows cols a Hrect Hpos). simpl.
  destruct Hrect as [-> _]. unfold slice_length.
  rewrite !slice_start_from_to, !slice_stop_from_to by lia.
  replace (Z.to_nat hi - Z.to_nat lo)%nat with (Z.to_nat (hi - lo)) by lia.
  destruct (_ && _) eqn:Hfits.
  - exfalso. apply andb_true_iff in Hfits as [Hh Hw].
    apply orb_true_iff in Hh, Hw. rewrite !Nat.eqb_eq in Hh, Hw. lia.
  - split; [by eexists|]. intros e [= <-]. by eexists.
Qed.

Lemma setitem_cell_outside {A} (n : nat) (a : list (list A)) (i j : Z) (v : A) :
  rect n n a → (0 < n)%nat →
  ¬ (- Z.of_nat n ≤ i < Z.of_nat n ∧ - Z.of_nat n ≤ j < Z.of_nat n) →
  ∃ msg, setitem_cell i j v a = Raise (IndexError msg).
Proof.
  intros Hrect Hpos Hout. unfold setitem_cell.
  rewrite (rect_shape n n a Hrect Hpos). simpl. destruct Hrect as [-> _].
  unfold py_index.
  destruct (Z.leb_spec 0 i), (Z.ltb_spec i (Z.of_nat n)),
    (Z.leb_spec (- Z.of_nat n) i), (Z.ltb_spec i 0),
    (Z.leb_spec 0 j), (Z.ltb_spec j (Z.of_nat n)),
    (Z.leb_spec (- Z.of_nat n) j), (Z.ltb_spec j 0); simpl; try (by eexists); lia.
Qed.

(** X10. A device block of the wrong shape is rejected before any
    simulation is built. If the block is neither [d] rows nor one row, or
    neither [d] columns nor one column, for the device size [d] of the
    object, then [SimulationData.solve] and [Cavity2D.solve] raise the
    [ValueError] of the block assignment and leave the object as it was:
    whatever the backend, the mode and the source position are. *)
Theorem wrong_block_shape_is_rejected (B : Backend) (epsilons : grid) (d : Z) :
  0 < d →
  ((shape epsilons).1 ≠ Z.to_nat d ∧ (shape epsilons).1 ≠ 1%nat)
  ∨ ((shape epsilons).2 ≠ Z.to_nat d ∧ (shape epsilons).2 ≠ 1%nat) →
  (∀ self : SimulationData.t,
     SimulationData.epsilons self = epsilons → SimulationData.grid_size self = d →
     0 ≤ SimulationData.npml self → 0 ≤ SimulationData.npml_buffer self →
     SimulationData.total_grid_size self
     = d + 2 * SimulationData.npml self + 2 * SimulationData.npml_buffer self →
     ∃ msg, SimulationData.solve B self = (self, Raise (ValueError msg))) ∧
  (∀ (self : Cavity2D.t) (omega : float) (src_x src_y : option Z),
     Cavity2D.device_length self = d →
     0 ≤ Cavity2D.npml self → 0 ≤ Cavity2D.cavity_buffer self →
     ∃ msg, Cavity2D.solve B epsilons omega src_x src_y self
            = (self, Raise (ValueError msg))).
Proof.
  intros Hd Hshape. split.
  - intros [eps om md gs np nb total dl0 L00 [sx sy] fs fv px]. simpl.
    intros -> -> Hnp Hnb ->.
    unfold SimulationData.solve, SimulationData.window, m_bind, m_self, m_lift. simpl.
    rewrite np_ones_ok by lia.
    set (n := Z.to_nat (d + 2 * np + 2 * nb)).
    destruct (setitem_block_mismatch n n (np + nb) (np + nb + d) epsilons
                (replicate n (replicate n 1%float))) as [[e He] Hkind];
      [apply rect_replicate | unfold n; lia.. | |].
    { by replace (np + nb + d - (np + nb)) with d by lia. }
    destruct (Hkind e He) as [msg ->]. rewrite He. by exists msg.
  - intros [md dlen np cb bp dl0 L00] omega src_x src_y. simpl. intros -> Hnp Hcb.
    unfold Cavity2D.solve, Cavity2D.geometry, m_bind, m_self, m_lift. simpl.
    rewrite np_ones_ok by lia.
    set (n := Z.to_nat (d + 2 * cb + 2 * np)).
    set (p2 := setitem_scalar (up_to (np + cb)) _ _ _).
    assert (rect n n p2) as R2 by (do 2 apply rect_setitem_scalar; apply rect_replicate).
    destruct (setitem_block_mismatch n n (np + cb) (np + cb + d) epsilons p2)
      as [[e He] Hkind]; [done | unfold n; lia.. | |].
    { by replace (np + cb + d - (np + cb)) with d by lia. }
    destruct (Hkind e He) as [msg ->]. rewrite He. by exists msg.
Qed.

Lemma wrong_block_shape_is_rejected_witness :
  (∃ msg, SimulationData.solve stub
            (SimulationData.Make [[5; 6; 7]]%float 1%float "Ez" 2 0 1 4
                                 0.05%float 1e-6%float (0, 0) None None None)
          = (SimulationData.Make [[5; 6; 7]]%float 1%float "Ez" 2 0 1 4
                                 0.05%float 1e-6%float (0, 0) None None None,
             Raise (ValueError msg))) ∧
  (∃ msg, Cavity2D.solve stub [[5; 6; 7]]%float 1%float None (Some 9)
            (Cavity2D.Make "TM" 2 0 1 (-1e20)%float 0.05%float 1e-6%float)
          = (Cavity2D.Make "TM" 2 0 1 (-1e20)%float 0.05%float 1e-6%float,
             Raise (ValueError msg))).
Proof.
  assert (0 < 2) as Hd by lia.
  assert (((shape [[5; 6; 7]]%float).1 ≠ Z.to_nat 2 ∧ (shape [[5; 6; 7]]%float).1 ≠ 1%nat)
          ∨ ((shape [[5; 6; 7]]%float).2 ≠ Z.to_nat 2
             ∧ (shape [[5; 6; 7]]%float).2 ≠ 1%nat)) as Hshape.
  { right. simpl. lia. }
  destruct (wrong_block_shape_is_rejected stub [[5; 6; 7]]%float 2 Hd Hshape)
    as [Hdata Hcavity].
  split.
  - apply Hdata; simpl; (done || lia).
  - apply Hcavity; simpl; (done || lia).
Defined.

(** X11. When the constructor has accepted the configuration, a source
    position outside the padded grid is an [IndexError] of the source
    assignment, raised before the solver is run, and the object stays as it
    was. In [SimulationData.solve] the position is [source_pos + start]; in
    [Cavity2D.solve] it is the given [src_y], [src_x] (the default centre is
    always inside). Indices from [-total] up to [total - 1] are inside. *)
Theorem source_outside_grid_raises (B : Backend) :
  (∀ self : SimulationData.t,
     let '(start, end_) := SimulationData.window self in
     let total := SimulationData.total_grid_size self in
     let '(sx, sy) := SimulationData.source_pos self in
     let gs := SimulationData.grid_size self in
     total = gs + 2 * SimulationData.npml self + 2 * SimulationData.npml_buffer self →
     0 < gs → 0 ≤ SimulationData.npml self → 0 ≤ SimulationData.npml_buffer self →
     total < 2 ^ 62 → - 2 ^ 62 ≤ sx < 2 ^ 62 → - 2 ^ 62 ≤ sy < 2 ^ 62 →
     rect (Z.to_nat gs) (Z.to_nat gs) (SimulationData.epsilons self) →
     (∀ perms, check_inputs B (SimulationData.omega self) perms (SimulationData.dl self)
                 [SimulationData.npml self; SimulationData.npml self]
                 (SimulationData.mode self) (SimulationData.L0 self) = None) →
     ¬ (- total ≤ sx + start < total ∧ - total ≤ sy + start < total) →
     ∃ msg, SimulationData.solve B self = (self, Raise (IndexError msg))) ∧
  (∀ (self : Cavity2D.t) (epsilons : grid) (omega : float) (src_x src_y : option Z),
     let '(total, start, end_) := Cavity2D.geometry self in
     0 < Cavity2D.device_length self → 0 ≤ Cavity2D.npml self →
     0 ≤ Cavity2D.cavity_buffer self →
     rect (Z.to_nat (Cavity2D.device_length self))
          (Z.to_nat (Cavity2D.device_length self)) epsilons →
     (∀ perms, check_inputs B omega perms (Cavity2D.dl self)
                 [Cavity2D.npml self; Cavity2D.npml self] (Cavity2D.mode self)
                 (Cavity2D.L0 self) = None) →
     ¬ (- total ≤ default (total `div` 2) src_y < total
        ∧ - total ≤ default (total `div` 2) src_x < total) →
     ∃ msg, Cavity2D.solve B epsilons omega src_x src_y self
            = (self, Raise (IndexError msg))).
Proof.
  split.
  - intros [eps om md gs np nb total dl0 L00 [sx sy] fs fv px].
    unfold SimulationData.window. simpl.
    set (start := np + nb). set (end_ := start + gs).
    intros Htotal Hgs Hnp Hnb Hbig Hsx Hsy Heps Hcheck Hout.
    unfold SimulationData.solve, SimulationData.window, SimulationData.shifted_source,
      m_bind, m_self, m_lift, m_assign. simpl. fold start end_.
    set (n := Z.to_nat total).
    rewrite np_ones_ok by lia. fold n.
    pose proof (rect_replicate n n 1%float) as R0.
    assert (Z.to_nat (end_ - start) = Z.to_nat gs) as Hlen by (unfold end_; f_equal; lia).
    destruct (setitem_block_ok n n start end_ eps (replicate n (replicate n 1%float)))
      as [perms Hperms]; [done | unfold n, start, end_ in *; lia.. | |].
    { rewrite Hlen. apply rect_shape; [done | lia]. }
    rewrite Hperms.
    unfold add64. pose proof wrap64_small as Hwrap. pow2.
    rewrite !Hwrap by (unfold start in *; lia).
    unfold new_Simulation. rewrite !Hcheck. unfold set_src. simpl.
    destruct (setitem_cell_outside n (map2d (λ _, c_zero) (replicate n (replicate n 1%float)))
                (sx + start) (sy + start) c_one) as [msg Hsrc];
      [by apply rect_map2d | unfold n; lia | unfold n; lia |].
    rewrite Hsrc. by exists msg.
  - intros [md d np cb bp dl0 L00] epsilons omega src_x src_y.
    unfold Cavity2D.geometry. simpl.
    set (total := d + 2 * cb + 2 * np). set (start := np + cb). set (end_ := start + d).
    intros Hd Hnp Hcb Heps Hcheck Hout.
    unfold Cavity2D.solve, Cavity2D.geometry, m_bind, m_self, m_lift, m_ret. simpl.
    fold total start end_.
    set (n := Z.to_nat total).
    rewrite np_ones_ok by (unfold total; lia). fold n.
    pose proof (rect_replicate n n 1%float) as R0.
    pose proof (rect_setitem_scalar n n everything (up_to start) bp _ R0) as R1.
    pose proof (rect_setitem_scalar n n (up_to start) everything bp _ R1) as R2.
    set (p2 := setitem_scalar (up_to start) _ _ _) in *.
    assert (Z.to_nat (end_ - start) = Z.to_nat d) as Hlen by (unfold end_; f_equal; lia).
    destruct (setitem_block_ok n n start end_ epsilons p2) as [p3 Hp3];
      [done | unfold n, total, start, end_ in *; lia.. | |].
    { rewrite Hlen. apply rect_shape; [done | lia]. }
    rewrite Hp3. pose proof (rect_setitem_block _ _ _ _ _ _ _ R2 Hp3) as R3.
    pose proof (rect_setitem_scalar n n everything (from end_) bp _ R3) as R4.
    pose proof (rect_setitem_scalar n n (from end_) everything bp _ R4) as R5.
    set (p5 := setitem_scalar (from end_) _ _ _) in *.
    unfold new_Simulation. rewrite Hcheck. unfold set_src. simpl.
    destruct (setitem_cell_outside n (map2d (λ _, c_zero) p5)
                (default (total `div` 2) src_y) (default (total `div` 2) src_x) c_i)
      as [msg Hsrc]; [by apply rect_map2d | unfold n, total; lia | unfold n, total in *; lia |].
    rewrite Hsrc. by exists msg.
Qed.

Lemma source_outside_grid_raises_witness :
  (∃ msg, SimulationData.solve stub
            (SimulationData.Make [[5; 6]; [7; 8]]%float 1%float "Ez" 2 0 1 4
                                 0.05%float 1e-6%float (3, 0) None None None)
          = (SimulationData.Make [[5; 6]; [7; 8]]%float 1%float "Ez" 2 0 1 4
                                 0.05%float 1e-6%float (3, 0) None None None,
             Raise (IndexError msg))) ∧
  (∃ msg, Cavity2D.solve stub [[5; 6]; [7; 8]]%float 1%float (Some (-5)) None
            (Cavity2D.Make "Hz" 2 0 1 (-1e20)%float 0.05%float 1e-6%float)
          = (Cavity2D.Make "Hz" 2 0 1 (-1e20)%float 0.05%float 1e-6%float,
             Raise (IndexError msg))).
Proof.
  assert (rect 2 2 [[5; 6]; [7; 8]]%float) as Hrect.
  { split; [done|]. intros [|[|i]] row; simpl; by intros [= <-]. }
  assert (4 < 2 ^ 62 ∧ - 2 ^ 62 ≤ 3 < 2 ^ 62 ∧ - 2 ^ 62 ≤ 0 < 2 ^ 62) as (Hb1 & Hb2 & Hb3)
    by (pow2; lia).
  destruct (source_outside_grid_raises stub) as [Hdata Hcavity].
  split.
  - apply (Hdata (SimulationData.Make [[5; 6]; [7; 8]]%float 1%float "Ez" 2 0 1 4
                                      0.05%float 1e-6%float (3, 0) None None None));
      simpl; try done; lia.
  - apply (Hcavity (Cavity2D.Make "Hz" 2 0 1 (-1e20)%float 0.05%float 1e-6%float));
      simpl; try done; lia.
Defined.

(** ** get_operators, get_A_ops_2d and the grid of an empty cavity *)

Lemma grid_ext {A} (rows cols : nat) (a b : list (list A)) :
  rect rows cols a → rect rows cols b →
  (∀ i j, (i < rows)%nat → (j < cols)%nat → cell a i j = cell b i j) → a = b.
Proof.
  intros [Ha Hca] [Hb Hcb] Hcells.
  apply (list_eq_same_length _ _ rows); [done.. |].
  intros i ra rb Hi Hra Hrb.
  apply (list_eq_same_length _ _ cols); [by eapply Hcb | by eapply Hca |].
  intros j x y Hj Hx Hy.
  specialize (Hcells i j Hi Hj). unfold cell in Hcells.
  rewrite Hra, Hrb in Hcells. simpl in Hcells. congruence.
Qed.

(** X12. [get_operators] is [get_A_ops_2d] on the cavity with an empty
    device. For mode "Ez", the operators [get_operators] returns are those
    that [get_A_ops_2d] returns for the permittivity grid that
    [Cavity2D.solve] returns for a device block of 1.0 in every cell, with
    the object's [npml], [dl] and [L0]. *)
Theorem operators_of_empty_cavity (B : Backend) (K : constants) (self : Cavity2D.t)
    (omega omega' : float) :
  Cavity2D.mode self = "Ez" →
  0 < Cavity2D.device_length self → 0 ≤ Cavity2D.npml self →
  0 ≤ Cavity2D.cavity_buffer self →
  (∀ perms, check_inputs B omega perms (Cavity2D.dl self)
              [Cavity2D.npml self; Cavity2D.npml self] "Ez" (Cavity2D.L0 self) = None) →
  (∀ sim, returned (solve_fields B sim)) →
  let d := Z.to_nat (Cavity2D.device_length self) in
  ∃ perms src_x src_y Hx Hy Ez,
    Cavity2D.solve B (replicate d (replicate d 1%float)) omega None None self
    = (self, Ok (perms, src_x, src_y, Hx, Hy, Ez)) ∧
    Cavity2D.operator_perms self = Ok perms ∧
    Cavity2D.get_operators B K self omega'
    = get_A_ops_2d B K perms (Cavity2D.npml self) omega' (Cavity2D.dl self)
                   (Cavity2D.L0 self).
Proof.
  destruct self as [md dlen np cb bp dl0 L00]. simpl.
  intros -> Hd Hnp Hcb Hcheck Hsolve.
  pose proof (operator_perms_eq (Cavity2D.Make "Ez" dlen np cb bp dl0 L00)) as Hperms.
  unfold Cavity2D.get_operators.
  unfold Cavity2D.solve, Cavity2D.geometry, m_bind, m_self, m_lift, m_ret in *.
  simpl in *.
  set (total := dlen + 2 * cb + 2 * np) in *.
  set (start := np + cb) in *. set (end_ := start + dlen) in *.
  set (n := Z.to_nat total) in *.
  rewrite Hperms by (unfold total; lia). clear Hperms.
  rewrite np_ones_ok by (unfold total; lia). fold n.
  pose proof (rect_replicate n n 1%float) as R0.
  pose proof (rect_setitem_scalar n n everything (up_to start) bp _ R0) as R1.
  pose proof (rect_setitem_scalar n n (up_to start) everything bp _ R1) as R2.
  set (p2 := setitem_scalar (up_to start) _ _ _) in *.
  assert (0 ≤ start ≤ end_ ∧ end_ ≤ Z.of_nat n) as [Hs He]
    by (unfold n, total, start, end_ in *; lia).
  assert (Z.to_nat (end_ - start) = Z.to_nat dlen) as Hlen by (unfold end_; f_equal; lia).
  pose proof (rect_replicate (Z.to_nat dlen) (Z.to_nat dlen) 1%float) as Rb.
  destruct (setitem_block_ok n n start end_
              (replicate (Z.to_nat dlen) (replicate (Z.to_nat dlen) 1%float)) p2)
    as [p3 Hp3]; [done | lia.. | |].
  { rewrite Hlen. apply rect_shape; [done | lia]. }
  rewrite Hp3. pose proof (rect_setitem_block _ _ _ _ _ _ _ R2 Hp3) as R3.
  assert (p3 = p2) as ->.
  { apply (grid_ext n n); [done.. |]. intros i j Hi Hj.
    pose proof (cell_replicate n n 1%float i j Hi Hj) as C0.
    pose proof (cell_setitem_scalar n n everything (up_to start) bp _ i j _ R0 C0) as C1.
    pose proof (cell_setitem_scalar n n (up_to start) everything bp _ i j _ R1 C1) as C2.
    fold p2 in C2.
    rewrite (cell_setitem_block n n start end_ _ p2 p3 i j _ R2 Hs
               ltac:(lia) ltac:(lia) ltac:(by rewrite Hlen) Hp3 C2).
    rewrite C2. case_bool_decide as Hin; [|done].
    rewrite cell_replicate by lia.
    rewrite !in_slice_up_to, !in_slice_everything by lia.
    repeat case_bool_decide; simpl; try done; lia. }
  set (p5 := setitem_scalar (from end_) _ _ _) in *.
  assert (rect n n p5) as R5 by (unfold p5; by do 2 apply rect_setitem_scalar).
  unfold new_Simulation. rewrite Hcheck. unfold set_src. simpl.
  assert (0 ≤ total `div` 2 < total) as Hhalf.
  { split; [apply Z.div_pos; unfold total; lia
           | apply Z.div_lt_upper_bound; unfold total; lia]. }
  destruct (setitem_cell_ok n (map2d (λ _, c_zero) p5) (total `div` 2) (total `div` 2) c_i)
    as [src Hset]; [by apply rect_map2d | lia.. |].
  rewrite Hset. simpl.
  match goal with |- context [solve_fields B ?sim] =>
    destruct (Hsolve sim) as [[[F1 F2] F3] HF] end.
  rewrite HF. simpl. rewrite !getitem_everything.
  exists p5, (total `div` 2), (total `div` 2), F1, F2, F3.
  split_and!; [done | done |]. unfold get_A_ops_2d, new_Simulation. done.
Qed.

Lemma operators_of_empty_cavity_witness :
  let self := Cavity2D.Make "Ez" 2 0 1 (-1e20)%float 0.05%float 1e-6%float in
  ∃ perms Hx Hy Ez,
    Cavity2D.solve stub [[1; 1]; [1; 1]]%float 1%float None None self
    = (self, Ok (perms, 2, 2, Hx, Hy, Ez)) ∧
    cell perms 1 1 = Some 1%float ∧ cell perms 0 1 = Some (-1e20)%float ∧
    Cavity2D.get_operators stub sample_constants self 2%float
    = get_A_ops_2d stub sample_constants perms 0 2%float 0.05%float 1e-6%float.
Proof.
  intros self.
  assert (0 < 2 ∧ 0 ≤ 0 ∧ 0 ≤ 1) as (H1 & H2 & H3) by lia.
  destruct (operators_of_empty_cavity stub sample_constants self 1%float 2%float
              eq_refl H1 H2 H3 ltac:(done) ltac:(intros sim; by eexists))
    as (perms & sx & sy & F1 & F2 & F3 & Hsolve & Hperms & Hops).
  exists perms, F1, F2, F3.
  assert (sx = 2 ∧ sy = 2) as [-> ->].
  { vm_compute in Hsolve. by injection Hsolve as _ <- <- _ _ _. }
  vm_compute in Hperms. injection Hperms as <-.
  split_and!; done.
Defined.

(** ** Cavity2D.solve: the source *)

Lemma py_index_mod (len : nat) (i : Z) :
  - Z.of_nat len ≤ i < Z.of_nat len →
  py_index len i = Some (Z.to_nat (i `mod` Z.of_nat len)).
Proof.
  intros H. unfold py_index.
  destruct (Z.leb_spec 0 i), (Z.ltb_spec i (Z.of_nat len)); simpl; try lia.
  - by rewrite Z.mod_small by lia.
  - destruct (Z.leb_spec (- Z.of_nat len) i), (Z.ltb_spec i 0); simpl; try lia.
    rewrite <- (Z_mod_plus_full i 1 (Z.of_nat len)).
    rewrite Z.mod_small by lia. do 2 f_equal. lia.
Qed.

Lemma cell_setitem_cell_wrap {A} (n : nat) (a a' : list (list A)) (i j : Z) (v : A)
    (i' j' : nat) :
  rect n n a → - Z.of_nat n ≤ i < Z.of_nat n → - Z.of_nat n ≤ j < Z.of_nat n →
  setitem_cell i j v a = Ok a' → (i' < n)%nat → (j' < n)%nat →
  cell a' i' j'
  = if bool_decide (Z.of_nat i' = i `mod` Z.of_nat n ∧ Z.of_nat j' = j `mod` Z.of_nat n)
    then Some v else cell a i' j'.
Proof.
  intros Hrect Hi Hj. unfold setitem_cell.
  assert (0 < n)%nat as Hpos by lia.
  rewrite (rect_shape n n a Hrect Hpos). simpl. destruct Hrect as [Hr Hc]. rewrite Hr.
  rewrite !py_index_mod by done. intros [= <-] Hi' Hj'.
  pose proof (Z.mod_pos_bound i (Z.of_nat n) ltac:(lia)) as Him.
  pose proof (Z.mod_pos_bound j (Z.of_nat n) ltac:(lia)) as Hjm.
  destruct (lookup_lt_is_Some_2 a i') as [row Hrow]; [lia|].
  unfold cell. rewrite list_lookup_imap, Hrow. simpl.
  destruct (Nat.eqb_spec i' (Z.to_nat (i `mod` Z.of_nat n))) as [->|Hne].
  - destruct (decide (j' = Z.to_nat (j `mod` Z.of_nat n))) as [->|Hnej].
    + rewrite list_lookup_insert_eq by (rewrite (Hc _ _ Hrow); lia).
      by rewrite bool_decide_eq_true_2 by lia.
    + rewrite list_lookup_insert_ne by done.
      by rewrite bool_decide_eq_false_2 by lia.
  - by rewrite bool_decide_eq_false_2 by lia.
Qed.

(** X13. The simulation [Cavity2D.solve] runs for a given source. For
    [src_x] and [src_y] from [-total] up to [total - 1] (and a valid mode, a
    block of the configured size, a solver that accepts the configuration
    and returns), the solver is run on the returned permittivity grid, the
    given frequency, the object's mode and [npml], and a source that is
    [1j] in one cell and 0 in every other: the cell at row [src_y] and
    column [src_x], a negative index counting from the end. The source
    position is returned as it was given. *)
Theorem cavity_solve_source (B : Backend) (self : Cavity2D.t) (epsilons : grid)
    (omega : float) (src_x src_y : Z) :
  Cavity2D.mode self = "Ez" ∨ Cavity2D.mode self = "Hz" →
  0 < Cavity2D.device_length self → 0 ≤ Cavity2D.npml self →
  0 ≤ Cavity2D.cavity_buffer self →
  rect (Z.to_nat (Cavity2D.device_length self)) (Z.to_nat (Cavity2D.device_length self))
       epsilons →
  (∀ perms, check_inputs B omega perms (Cavity2D.dl self)
              [Cavity2D.npml self; Cavity2D.npml self] (Cavity2D.mode self)
              (Cavity2D.L0 self) = None) →
  (∀ sim, returned (solve_fields B sim)) →
  let '(total, start, end_) := Cavity2D.geometry self in
  - total ≤ src_x < total → - total ≤ src_y < total →
  ∃ sim perms F1 F2 F3,
    solve_fields B sim = Ok (F1, F2, F3) ∧
    Cavity2D.solve B epsilons omega (Some src_x) (Some src_y) self
    = (self, Ok (perms, src_x, src_y, F1, F2, F3)) ∧
    sim_eps_r sim = perms ∧ sim_omega sim = omega ∧
    sim_pol sim = Cavity2D.mode self ∧
    sim_NPML sim = [Cavity2D.npml self; Cavity2D.npml self] ∧
    ∀ i j : nat, Z.of_nat i < total → Z.of_nat j < total →
      cell (sim_src sim) i j
      = Some (if bool_decide (Z.of_nat i = src_y `mod` total ∧ Z.of_nat j = src_x `mod` total)
              then c_i else c_zero).
Proof.
  intros Hmode Hd Hp Hb Heps Hcheck Hsolve.
  unfold Cavity2D.solve, Cavity2D.geometry, m_bind, m_self, m_lift, m_ret. simpl.
  set (total := Cavity2D.device_length self + 2 * Cavity2D.cavity_buffer self
                + 2 * Cavity2D.npml self) in *.
  set (start := Cavity2D.npml self + Cavity2D.cavity_buffer self).
  set (end_ := start + Cavity2D.device_length self).
  set (bp := Cavity2D.buffer_permittivity self).
  set (n := Z.to_nat total).
  intros Hsx Hsy.
  rewrite np_ones_ok by (unfold total; lia). fold n.
  pose proof (rect_replicate n n 1%float) as R0.
  pose proof (rect_setitem_scalar n n everything (up_to start) bp _ R0) as R1.
  pose proof (rect_setitem_scalar n n (up_to start) everything bp _ R1) as R2.
  set (p2 := setitem_scalar (up_to start) _ _ _) in *.
  assert (0 ≤ start ≤ end_ ∧ end_ ≤ Z.of_nat n) as [Hs He]
    by (unfold n, total, start, end_ in *; lia).
  assert (Z.to_nat (end_ - start) = Z.to_nat (Cavity2D.device_length self)) as Hlen
    by (unfold end_; f_equal; lia).
  destruct (setitem_block_ok n n start end_ epsilons p2) as [p3 Hp3];
    [done | lia.. | |].
  { rewrite Hlen. apply rect_shape; [done | lia]. }
  rewrite Hp3. pose proof (rect_setitem_block _ _ _ _ _ _ _ R2 Hp3) as R3.
  pose proof (rect_setitem_scalar n n everything (from end_) bp _ R3) as R4.
  pose proof (rect_setitem_scalar n n (from end_) everything bp _ R4) as R5.
  set (p5 := setitem_scalar (from end_) _ _ _) in *.
  unfold new_Simulation. rewrite Hcheck. unfold set_src. simpl.
  assert (Z.of_nat n = total) as Hn by (unfold n, total; lia).
  destruct (setitem_cell_ok n (map2d (λ _, c_zero) p5) src_y src_x c_i)
    as [src Hset]; [by apply rect_map2d | lia.. |].
  rewrite Hset. simpl.
  match goal with |- context [solve_fields B ?s] =>
    destruct (Hsolve s) as [[[F1 F2] F3] HF]; set (sim := s) in * end.
  exists sim, p5, F1, F2, F3. split_and!; [done | | done.. |].
  - subst sim.
    destruct Hmode as [Hm | Hm]; rewrite Hm; simpl; rewrite Hm in HF; rewrite HF; simpl;
      by rewrite !getitem_everything.
  - intros i j Hi Hj. simpl.
    rewrite (map2d_const c_zero n n p5 R5) in Hset.
    assert (- Z.of_nat n ≤ src_y < Z.of_nat n ∧ - Z.of_nat n ≤ src_x < Z.of_nat n)
      as [Hyn Hxn] by lia.
    assert (i < n ∧ j < n)%nat as [Hin Hjn] by lia.
    rewrite (cell_setitem_cell_wrap n _ _ _ _ _ i j (rect_replicate n n c_zero)
               Hyn Hxn Hset Hin Hjn).
    rewrite cell_replicate by lia. rewrite Hn. by case_bool_decide.
Qed.

Lemma cavity_solve_source_witness :
  let self := Cavity2D.Make "Hz" 2 0 1 (-1e20)%float 0.05%float 1e-6%float in
  ∃ (sim : Simulation (Op stub)) perms F1 F2 F3,
    Cavity2D.solve stub [[5; 6]; [7; 8]]%float 1%float (Some (-1)) (Some 1) self
    = (self, Ok (perms, -1, 1, F1, F2, F3)) ∧
    cell (sim_src sim) 1 3 = Some c_i ∧ cell (sim_src sim) 3 1 = Some c_zero.
Proof.
  intros self.
  assert (rect 2 2 [[5; 6]; [7; 8]]%float) as Hrect.
  { split; [done|]. intros [|[|i]] row; simpl; by intros [= <-]. }
  assert (0 < 2 ∧ 0 ≤ 0 ∧ 0 ≤ 1 ∧ - 4 ≤ -1 < 4 ∧ - 4 ≤ 1 < 4) as (H1 & H2 & H3 & H4 & H5)
    by lia.
  destruct (cavity_solve_source stub self [[5; 6]; [7; 8]]%float 1%float (-1) 1
              (or_intror eq_refl) H1 H2 H3 Hrect ltac:(done) ltac:(intros sim; by eexists)
              H4 H5)
    as (sim & perms & F1 & F2 & F3 & _ & Hsolve & _ & _ & _ & _ & Hcells).
  exists sim, perms, F1, F2, F3. split_and!; [done | |].
  - by rewrite (Hcells 1%nat 3%nat) by (simpl; lia).
  - by rewrite (Hcells 3%nat 1%nat) by (simpl; lia).
Defined.

(** ** Cavity2D.solve, step by step *)

(** With a device block of the configured size, [Cavity2D.solve] builds the
    padded grid and then runs, in this order: the constructor, the source
    assignment, and the dispatch on the mode. *)
Lemma cavity_solve_steps (B : Backend) (self : Cavity2D.t) (epsilons : grid)
    (omega : float) (src_x src_y : option Z) :
  0 < Cavity2D.device_length self → 0 ≤ Cavity2D.npml self →
  0 ≤ Cavity2D.cavity_buffer self →
  rect (Z.to_nat (Cavity2D.device_length self)) (Z.to_nat (Cavity2D.device_length self))
       epsilons →
  let '(total, start, end_) := Cavity2D.geometry self in
  let n := Z.to_nat total in
  let sx := default (total `div` 2) src_x in
  let sy := default (total `div` 2) src_y in
  ∃ perms,
    rect n n perms ∧
    (∀ i j : nat, Z.of_nat i < total → Z.of_nat j < total →
       cell perms i j
       = if bool_decide (start ≤ Z.of_nat i < end_ ∧ start ≤ Z.of_nat j < end_)
         then cell epsilons (i - Z.to_nat start) (j - Z.to_nat start)
         else Some (Cavity2D.buffer_permittivity self)) ∧
    Cavity2D.solve B epsilons omega src_x src_y self
    = (self,
       match check_inputs B omega perms (Cavity2D.dl self)
               [Cavity2D.npml self; Cavity2D.npml self] (Cavity2D.mode self)
               (Cavity2D.L0 self) with
       | Some e => Raise e
       | None =>
           match setitem_cell sy sx c_i (replicate n (replicate n c_zero)) with
           | Raise e => Raise e
           | Ok src =>
               let sim := Sim omega perms (Cavity2D.dl self)
                              [Cavity2D.npml self; Cavity2D.npml self]
                              (Cavity2D.mode self) (Cavity2D.L0 self) src
                              (assemble B omega (n, n) (Cavity2D.dl self)
                                 [Cavity2D.npml self; Cavity2D.npml self]
                                 (Cavity2D.mode self) (Cavity2D.L0 self)) in
               if bool_decide (Cavity2D.mode self = "Ez" ∨ Cavity2D.mode self = "Hz")
               then match solve_fields B sim with
                    | Ok (F1, F2, F3) => Ok (perms, sx, sy, F1, F2, F3)
                    | Raise e => Raise e
                    end
               else Raise (ValueError "Polarization must be Ez or Hz!")
           end
       end).
Proof.
  intros Hd Hp Hb Heps.
  unfold Cavity2D.solve, Cavity2D.geometry, m_bind, m_self, m_lift, m_ret. simpl.
  set (total := Cavity2D.device_length self + 2 * Cavity2D.cavity_buffer self
                + 2 * Cavity2D.npml self) in *.
  set (start := Cavity2D.npml self + Cavity2D.cavity_buffer self).
  set (end_ := start + Cavity2D.device_length self).
  set (bp := Cavity2D.buffer_permittivity self).
  set (n := Z.to_nat total).
  rewrite np_ones_ok by (unfold total; lia). fold n.
  pose proof (rect_replicate n n 1%float) as R0.
  pose proof (rect_setitem_scalar n n everything (up_to start) bp _ R0) as R1.
  pose proof (rect_setitem_scalar n n (up_to start) everything bp _ R1) as R2.
  set (p2 := setitem_scalar (up_to start) _ _ _) in *.
  assert (0 ≤ start ≤ end_ ∧ end_ ≤ Z.of_nat n) as [Hs He]
    by (unfold n, total, start, end_ in *; lia).
  assert (Z.to_nat (end_ - start) = Z.to_nat (Cavity2D.device_length self)) as Hlen
    by (unfold end_; f_equal; lia).
  destruct (setitem_block_ok n n start end_ epsilons p2) as [p3 Hp3];
    [done | lia.. | |].
  { rewrite Hlen. apply rect_shape; [done | lia]. }
  rewrite Hp3. pose proof (rect_setitem_block _ _ _ _ _ _ _ R2 Hp3) as R3.
  pose proof (rect_setitem_scalar n n everything (from end_) bp _ R3) as R4.
  pose proof (rect_setitem_scalar n n (from end_) everything bp _ R4) as R5.
  set (p5 := setitem_scalar (from end_) _ _ _) in *.
  exists p5. split; [done|]. split.
  - intros i j Hi Hj.
    assert (i < n ∧ j < n)%nat as [Hin Hjn] by lia.
    pose proof (cell_replicate n n 1%float i j Hin Hjn) as C0.
    pose proof (cell_setitem_scalar n n everything (up_to start) bp _ i j _ R0 C0) as C1.
    pose proof (cell_setitem_scalar n n (up_to start) everything bp _ i j _ R1 C1) as C2.
    fold p2 in C2.
    assert (Z.to_nat (end_ - start) = Z.to_nat (Cavity2D.device_length self)) as Hlen'
      by done.
    rewrite <- Hlen' in Heps.
    pose proof (cell_setitem_block n n start end_ epsilons p2 p3 i j _ R2 Hs
                  He He Heps Hp3 C2) as C3.
    destruct (rect_cell_is_Some n n p3 i j R3 Hin Hjn) as [x3 Hx3].
    pose proof (cell_setitem_scalar n n everything (from end_) bp _ i j _ R3 Hx3) as C4.
    unfold p5. rewrite (cell_setitem_scalar n n (from end_) everything bp _ i j _ R4 C4).
    rewrite !in_slice_from, !in_slice_everything by lia.
    rewrite Hx3 in C3. revert C3.
    rewrite !in_slice_up_to, !in_slice_everything by lia.
    repeat case_bool_decide; simpl; intros; try done; try lia; congruence.
  - f_equal. unfold new_Simulation.
    destruct (check_inputs B omega p5 _ _ _ _) as [e|]; [done|]. simpl.
    unfold set_src. simpl.
    rewrite (map2d_const c_zero n n p5 R5), (rect_square_shape n p5 R5).
    destruct (setitem_cell _ _ c_i _) as [src|e]; [|done]. simpl.
    destruct (decide (Cavity2D.mode self = "Ez")) as [HEz|HEz].
    + rewrite bool_decide_eq_true_2 by by left.
      destruct (solve_fields B _) as [[[F1 F2] F3]|e]; [|done]. simpl.
      by rewrite !getitem_everything.
    + destruct (decide (Cavity2D.mode self = "Hz")) as [HHz|HHz].
      * rewrite bool_decide_eq_true_2 by by right.
        destruct (solve_fields B _) as [[[F1 F2] F3]|e]; [|done]. simpl.
        by rewrite !getitem_everything.
      * rewrite bool_decide_eq_false_2 by tauto. done.
Qed.

(** ** Cavity2D.solve: an invalid mode *)

Lemma setitem_block_mismatch_message rows cols (lo hi : Z) (b a : grid) :
  rect rows cols a → (0 < rows)%nat →
  0 ≤ lo ≤ hi → hi ≤ Z.of_nat rows → hi ≤ Z.of_nat cols →
  ((shape b).1 ≠ Z.to_nat (hi - lo) ∧ (shape b).1 ≠ 1%nat)
  ∨ ((shape b).2 ≠ Z.to_nat (hi - lo) ∧ (shape b).2 ≠ 1%nat) →
  setitem_block (from_to lo hi) (from_to lo hi) b a
  = Raise (ValueError "could not broadcast input array into shape of the block").
Proof.
  intros Hrect Hpos Hlo Hrows Hcols Hb. unfold setitem_block.
  destruct (shape b) as [hb wb]. simpl in Hb.
  rewrite (rect_shape rows cols a Hrect Hpos). simpl.
  destruct Hrect as [-> _]. unfold slice_length.
  rewrite !slice_start_from_to, !slice_stop_from_to by lia.
  replace (Z.to_nat hi - Z.to_nat lo)%nat with (Z.to_nat (hi - lo)) by lia.
  destruct (_ && _) eqn:Hfits; [|done].
  exfalso. apply andb_true_iff in Hfits as [Hh Hw].
  apply orb_true_iff in Hh, Hw. rewrite !Nat.eqb_eq in Hh, Hw. lia.
Qed.

Lemma stub_rejects_unknown_pol : rejects_unknown_pol stub.
Proof.
  intros omega eps_r dl NPML pol L0 HEz HHz. simpl. unfold angler_check_inputs.
  repeat (case_match; try by eexists).
  exfalso. by destruct (bool_decide_eq_true_1 _ ltac:(eassumption)).
Qed.

Lemma cavity_error_does_not_name_mode :
  let self := Cavity2D.Make "TM" 2 0 1 (-1e20)%float 0.05%float 1e-6%float in
  ∃ e, Cavity2D.solve stub [[5; 6]; [7; 8]]%float 1%float None None self = (self, Raise e) ∧
       e = AssertionError "pol must be one of 'Ez' or 'Hz'" ∧
       e ≠ ValueError "Polarization must be Ez or Hz!" ∧
       String.index 0 "TM" (message e) = None ∧
       String.index 0 "TM" "Polarization must be Ez or Hz!" = None.
Proof. eexists. split_and!; [vm_compute; reflexivity | done..]. Qed.

(** C5 (amended). With a polarization mode other than "Ez" and "Hz",
    [Cavity2D.solve] always raises and never changes the object, but its own
    check comes last. A device block that does not fit the window raises the
    [ValueError] of the assignment. Otherwise the padded grid is built and
    the simulation is constructed on it with the mode: an error of the
    constructor is raised as it is, so a constructor that rejects unsupported
    modes (as [angler]'s does by an assertion) decides the error. If the
    constructor accepts, a source outside the grid is an [IndexError]; only
    when all of these steps succeed does [solve] raise its own [ValueError]
    with the fixed message "Polarization must be Ez or Hz!", which does not
    depend on the mode that was passed. *)
Theorem cavity_solve_invalid_mode (B : Backend) (self : Cavity2D.t) (epsilons : grid)
    (omega : float) (src_x src_y : option Z) :
  Cavity2D.mode self ≠ "Ez" → Cavity2D.mode self ≠ "Hz" →
  let out := Cavity2D.solve B epsilons omega src_x src_y self in
  let mode_error := ValueError "Polarization must be Ez or Hz!" in
  let d := Z.to_nat (Cavity2D.device_length self) in
  out.1 = self ∧
  raised out.2 ∧
  (0 < Cavity2D.device_length self → 0 ≤ Cavity2D.npml self →
   0 ≤ Cavity2D.cavity_buffer self →
   let '(total, start, end_) := Cavity2D.geometry self in
   let n := Z.to_nat total in
   let inside := - total ≤ default (total `div` 2) src_y < total
                 ∧ - total ≤ default (total `div` 2) src_x < total in
   (((shape epsilons).1 ≠ d ∧ (shape epsilons).1 ≠ 1%nat)
    ∨ ((shape epsilons).2 ≠ d ∧ (shape epsilons).2 ≠ 1%nat) →
    ∃ msg, out.2 = Raise (ValueError msg) ∧ out.2 ≠ Raise mode_error) ∧
   (rect d d epsilons →
    ∃ perms,
      rect n n perms ∧
      (∀ i j : nat, Z.of_nat i < total → Z.of_nat j < total →
         cell perms i j
         = if bool_decide (start ≤ Z.of_nat i < end_ ∧ start ≤ Z.of_nat j < end_)
           then cell epsilons (i - Z.to_nat start) (j - Z.to_nat start)
           else Some (Cavity2D.buffer_permittivity self)) ∧
      let checked := check_inputs B omega perms (Cavity2D.dl self)
                       [Cavity2D.npml self; Cavity2D.npml self] (Cavity2D.mode self)
                       (Cavity2D.L0 self) in
      (∀ e, checked = Some e → out.2 = Raise e) ∧
      (checked = None → ¬ inside → ∃ msg, out.2 = Raise (IndexError msg)) ∧
      (checked = None → inside → out.2 = Raise mode_error) ∧
      (rejects_unknown_pol B → ∃ msg, out.2 = Raise (AssertionError msg)))).
Proof.
  intros HEz HHz out mode_error d. split_and!.
  - apply cavity_solve_keeps_self.
  - by apply cavity_solve_raises.
  - intros Hd Hp Hb.
    pose proof (cavity_solve_steps B self epsilons omega src_x src_y Hd Hp Hb) as Hsteps.
    unfold out. clear out.
    destruct self as [md dlen np cb bp dl0 L00].
    unfold Cavity2D.geometry in *. simpl in *.
    set (total := dlen + 2 * cb + 2 * np) in *.
    set (start := np + cb) in *. set (end_ := start + dlen) in *.
    set (n := Z.to_nat total) in *.
    split.
    + intros Hshape.
      unfold Cavity2D.solve, Cavity2D.geometry, m_bind, m_self, m_lift. simpl.
      fold total start end_.
      rewrite np_ones_ok by (unfold total; lia). fold n.
      set (p2 := setitem_scalar (up_to start) _ _ _).
      assert (rect n n p2) as R2 by (do 2 apply rect_setitem_scalar; apply rect_replicate).
      rewrite (setitem_block_mismatch_message n n start end_ epsilons p2);
        [| done | unfold n, total, start, end_ in *; lia.. |].
      * eexists. split; [reflexivity | done].
      * by replace (end_ - start) with dlen by (unfold end_; lia).
    + intros Heps. destruct (Hsteps Heps) as (perms & Hrect & Hcells & Hsolve).
      exists perms. split; [done|]. split; [done|].
      rewrite Hsolve. simpl.
      rewrite bool_decide_eq_false_2 by tauto.
      assert (Z.of_nat n = total) as Hn by (unfold n, total; lia).
      split_and!.
      * by intros e ->.
      * intros -> Hout.
        destruct (setitem_cell_outside n (replicate n (replicate n c_zero))
                    (default (total `div` 2) src_y) (default (total `div` 2) src_x) c_i)
          as [msg ->]; [apply rect_replicate | unfold n, total; lia | lia |].
        by exists msg.
      * intros -> [Hy Hx].
        destruct (setitem_cell_ok n (replicate n (replicate n c_zero))
                    (default (total `div` 2) src_y) (default (total `div` 2) src_x) c_i)
          as [src ->]; [apply rect_replicate | lia.. |]. done.
      * intros Hrejects.
        destruct (Hrejects omega perms dl0 [np; np] md L00 HEz HHz) as [msg ->].
        by exists msg.
Qed.

Lemma cavity_solve_invalid_mode_witness :
  let self := Cavity2D.Make "TM" 2 0 1 (-1e20)%float 0.05%float 1e-6%float in
  ("TM" ≠ "Ez" ∧ "TM" ≠ "Hz") ∧
  (Cavity2D.solve stub [[5; 6]; [7; 8]]%float 1%float None None self).1 = self ∧
  (Cavity2D.solve stub [[5; 6]; [7; 8]]%float 1%float None None self).2
  = Raise (AssertionError "pol must be one of 'Ez' or 'Hz'") ∧
  ∃ msg, (Cavity2D.solve stub [[5; 6; 7]]%float 1%float None None self).2
         = Raise (ValueError msg).
Proof.
  intros self.
  assert ("TM" ≠ "Ez" ∧ "TM" ≠ "Hz") as [H1 H2] by (split; discriminate).
  assert (rect 2 2 [[5; 6]; [7; 8]]%float) as Hrect.
  { split; [done|]. intros [|[|i]] row; simpl; by intros [= <-]. }
  assert (0 < 2 ∧ 0 ≤ 0 ∧ 0 ≤ 1) as (Hd & Hp & Hb) by lia.
  split; [done|].
  destruct (cavity_solve_invalid_mode stub self [[5; 6]; [7; 8]]%float 1%float None None
              H1 H2) as (Hself & _ & Horder).
  destruct (Horder Hd Hp Hb) as [_ Hfit].
  destruct (Hfit Hrect) as (perms & _ & _ & Hrejected & _ & _ & Hassert).
  destruct (Hassert stub_rejects_unknown_pol) as [asserted Hasserted].
  split_and!; [done | by apply Hrejected |].
  destruct (cavity_solve_invalid_mode stub self [[5; 6; 7]]%float 1%float None None
              H1 H2) as (_ & _ & Horder').
  destruct (Horder' Hd Hp Hb) as [Hmismatch _].
  destruct Hmismatch as (msg & Hmsg & _); [right; simpl; lia|].
  by exists msg.
Defined.

(** ** Cavity2D.solve: the padded grid and the default source *)

(** X3. With a valid mode, a device block of the configured size and a solver
    that accepts the configuration, [Cavity2D.solve] returns and leaves the
    object as it was. It returns the padded permittivity, which is the
    device block inside the window and [buffer_permittivity] everywhere
    else, and the fields of the simulation it has solved on that grid. The
    default source is at the centre of the padded grid: the returned
    coordinates are [total_length // 2] twice, and the source of the solved
    simulation is [1j] in the cell at that row and column and 0 in every
    other cell. *)
Theorem cavity_solve_embeds_device (B : Backend) (self : Cavity2D.t) (epsilons : grid)
    (omega : float) :
  Cavity2D.mode self = "Ez" ∨ Cavity2D.mode self = "Hz" →
  0 < Cavity2D.device_length self → 0 ≤ Cavity2D.npml self →
  0 ≤ Cavity2D.cavity_buffer self →
  rect (Z.to_nat (Cavity2D.device_length self)) (Z.to_nat (Cavity2D.device_length self))
       epsilons →
  (∀ perms, check_inputs B omega perms (Cavity2D.dl self)
              [Cavity2D.npml self; Cavity2D.npml self] (Cavity2D.mode self)
              (Cavity2D.L0 self) = None) →
  (∀ sim, returned (solve_fields B sim)) →
  let '(total_length, start, end_) := Cavity2D.geometry self in
  ∃ sim perms F1 F2 F3,
    Cavity2D.solve B epsilons omega None None self
    = (self, Ok (perms, total_length `div` 2, total_length `div` 2, F1, F2, F3)) ∧
    rect (Z.to_nat total_length) (Z.to_nat total_length) perms ∧
    (∀ i j : nat, Z.of_nat i < total_length → Z.of_nat j < total_length →
       cell perms i j
       = if bool_decide (start ≤ Z.of_nat i < end_ ∧ start ≤ Z.of_nat j < end_)
         then cell epsilons (i - Z.to_nat start) (j - Z.to_nat start)
         else Some (Cavity2D.buffer_permittivity self)) ∧
    solve_fields B sim = Ok (F1, F2, F3) ∧
    sim_eps_r sim = perms ∧ sim_omega sim = omega ∧
    sim_pol sim = Cavity2D.mode self ∧
    (∀ i j : nat, Z.of_nat i < total_length → Z.of_nat j < total_length →
       cell (sim_src sim) i j
       = Some (if bool_decide (Z.of_nat i = total_length `div` 2
                               ∧ Z.of_nat j = total_length `div` 2)
               then c_i else c_zero)).
Proof.
  intros Hmode Hd Hp Hb Heps Hcheck Hsolve.
  pose proof (cavity_solve_steps B self epsilons omega None None Hd Hp Hb Heps) as Hsteps.
  unfold Cavity2D.geometry in *. simpl in *.
  set (total := Cavity2D.device_length self + 2 * Cavity2D.cavity_buffer self
                + 2 * Cavity2D.npml self) in *.
  set (n := Z.to_nat total) in *.
  destruct Hsteps as (perms & Hrect & Hcells & Hrun).
  rewrite Hcheck in Hrun.
  assert (0 ≤ total `div` 2 < Z.of_nat n) as Hhalf.
  { split; [apply Z.div_pos; unfold total; lia
           | apply Z.div_lt_upper_bound; unfold n, total; lia]. }
  destruct (setitem_cell_ok n (replicate n (replicate n c_zero))
              (total `div` 2) (total `div` 2) c_i) as [src Hsrc];
    [apply rect_replicate | lia.. |].
  rewrite Hsrc in Hrun. cbv zeta in Hrun.
  rewrite bool_decide_eq_true_2 in Hrun by done.
  match type of Hrun with context [solve_fields B ?s] =>
    destruct (Hsolve s) as [[[F1 F2] F3] HF]; set (sim := s) in * end.
  rewrite HF in Hrun.
  exists sim, perms, F1, F2, F3. split_and!; [done..|].
  intros i j Hi Hj. simpl.
  assert (i < n ∧ j < n)%nat as [Hin Hjn] by (unfold n; lia).
  rewrite (cell_setitem_cell n _ _ _ _ _ i j (rect_replicate n n c_zero)
             Hhalf Hhalf Hsrc Hin Hjn).
  rewrite cell_replicate by done. by case_bool_decide.
Qed.

Lemma cavity_solve_embeds_device_witness :
  let self := Cavity2D.Make "Ez" 2 0 1 (-1e20)%float 0.05%float 1e-6%float in
  ∃ (sim : Simulation (Op stub)) perms F1 F2 F3,
    Cavity2D.solve stub [[5; 6]; [7; 8]]%float 1%float None None self
    = (self, Ok (perms, 2, 2, F1, F2, F3)) ∧
    cell perms 1 2 = Some 6%float ∧ cell perms 0 2 = Some (-1e20)%float ∧
    cell (sim_src sim) 2 2 = Some c_i ∧ cell (sim_src sim) 0 0 = Some c_zero.
Proof.
  intros self.
  assert (rect 2 2 [[5; 6]; [7; 8]]%float) as Hrect.
  { split; [done|]. intros [|[|i]] row; simpl; by intros [= <-]. }
  assert (0 < 2 ∧ 0 ≤ 0 ∧ 0 ≤ 1) as (Hd & Hp & Hb) by lia.
  destruct (cavity_solve_embeds_device stub self [[5; 6]; [7; 8]]%float 1%float
              (or_introl eq_refl) Hd Hp Hb Hrect ltac:(done) ltac:(intros sim; by eexists))
    as (sim & perms & F1 & F2 & F3 & Hsolve & _ & Hcell & _ & _ & _ & _ & Hsrc).
  exists sim, perms, F1, F2, F3. split_and!; [done | | | |].
  - by rewrite (Hcell 1%nat 2%nat) by (simpl; lia).
  - by rewrite (Hcell 0%nat 2%nat) by (simpl; lia).
  - by rewrite (Hsrc 2%nat 2%nat) by (simpl; lia).
  - by rewrite (Hsrc 0%nat 0%nat) by (simpl; lia).
Defined.

(** ** get_proximity_matrix on an empty padded grid *)

(** X14. When the padded grid has no cell ([total_grid_size <= 0]),
    [get_proximity_matrix] raises an [IndexError] for each of the four
    known transforms: the nested list is empty, numpy makes a
    one-dimensional array of it, and the two-dimensional slice does not fit.
    An unknown transform still returns [None], since no array is built. *)
Theorem proximity_matrix_of_empty_grid (self : SimulationData.t) (mode : string) :
  SimulationData.total_grid_size self ≤ 0 →
  (mode = "linear" ∨ mode = "squared" ∨ mode = "inv_linear" ∨ mode = "inv_squared" →
   ∃ msg, SimulationData.get_proximity_matrix self mode = Raise (IndexError msg)) ∧
  (mode ≠ "linear" → mode ≠ "squared" → mode ≠ "inv_linear" → mode ≠ "inv_squared" →
   SimulationData.get_proximity_matrix self mode = Ok None).
Proof.
  intros Hn. split.
  - intros Hmode. eexists. by apply proximity_empty.
  - intros H1 H2 H3 H4. by apply proximity_unknown.
Qed.

Lemma proximity_matrix_of_empty_grid_witness :
  let self := SimulationData.Make [] 1%float "Ez" 0 0 0 0 0.05%float 1e-6%float (0, 0)
                                  None None None in
  (∃ msg, SimulationData.get_proximity_matrix self "squared" = Raise (IndexError msg)) ∧
  SimulationData.get_proximity_matrix self "cubic" = Ok None.
Proof.
  intros self.
  assert (SimulationData.total_grid_size self ≤ 0) as Hn by (simpl; lia).
  split.
  - destruct (proximity_matrix_of_empty_grid self "squared" Hn) as [Hknown _].
    apply Hknown. tauto.
  - destruct (proximity_matrix_of_empty_grid self "cubic" Hn) as [_ Hunknown].
    by apply Hunknown.
Defined.
